(** * vuexpress: the server-side renderer (src/renderer/renderer.js)

    A shallow embedding of [Renderer] and of the collaborators it talks to,
    followed by the properties of the rendering pipeline.

    - JavaScript values are a small inductive type with truthiness and
      property reads; a read on [null]/[undefined] raises a TypeError.
    - Arrays that the code mutates in place ([options.preCompile]) live in
      a heap and are held by reference, so that aliasing is visible.
    - A promise is modelled by how it settles; calls of [getVueClass] that
      overlap in time are modelled by an event machine. *)

From Stdlib Require Import String Ascii ZArith List Lia Permutation.
From stdpp Require Import base option list strings gmap.

Local Open Scope string_scope.
Local Open Scope list_scope.

(** ** JavaScript values *)

Module Js.

(** How a promise settles: fulfilled, rejected, or never. *)
Inductive Settled (E A : Type) : Type :=
| Fulfilled (a : A)
| Rejected (e : E)
| Forever.
Arguments Fulfilled {E A} a.
Arguments Rejected {E A} e.
Arguments Forever {E A}.

(** What evaluating a call gives: a value, or an exception thrown
    synchronously. *)
Inductive Completion (E A : Type) : Type :=
| Returns (a : A)
| Throws (e : E).
Arguments Returns {E A} a.
Arguments Throws {E A} e.

(** Values.  [JFn ret fields] is a function object: called without
    arguments it returns a promise that settles as [ret]; [fields] are its
    own properties (a plugin class with a static [install], say).
    Numbers are integers here, so there is no NaN. *)
Unset Elimination Schemes.
Inductive val : Type :=
| JUndefined
| JNull
| JBool (b : bool)
| JNum (n : Z)
| JStr (s : string)
| JObj (fields : gmap string val)
| JFn (ret : Settled val val) (fields : gmap string val).
Set Elimination Schemes.

Definition truthy (v : val) : bool :=
  match v with
  | JUndefined | JNull => false
  | JBool b => b
  | JNum n => negb (n =? 0)%Z
  | JStr s => negb (String.eqb s "")
  | JObj _ | JFn _ _ => true
  end.

Definition nullish (v : val) : bool :=
  match v with
  | JUndefined | JNull => true
  | _ => false
  end.

(** [typeof v === 'string'] *)
Definition is_string (v : val) : option string :=
  match v with
  | JStr s => Some s
  | _ => None
  end.

(** Own enumerable properties, as [Object.assign] reads them from a
    source.  Primitive sources contribute nothing (the indexed characters
    of a string source are not modelled). *)
Definition own (v : val) : gmap string val :=
  match v with
  | JObj fs | JFn _ fs => fs
  | _ => ∅
  end.

(** [Object.assign(target, src)] on the target's properties: the source
    wins where both have a key. *)
Definition assign (target : gmap string val) (src : val) : gmap string val :=
  own src ∪ target.

(** [v.k] for a receiver that is not [null]/[undefined]: a missing
    property reads as [undefined]. *)
Definition member (v : val) (k : string) : val :=
  default JUndefined (own v !! k).

Definition TypeError (msg : string) : val :=
  JObj {[ "name" := JStr "TypeError"; "message" := JStr msg ]}.

(** [v.k] in general: reading a property of [null]/[undefined] throws. *)
Definition get_prop (v : val) (k : string) : Completion val val :=
  if nullish v
  then Throws (TypeError ("Cannot read property '" +:+ k +:+ "'"))
  else Returns (member v k).

(** [e.k = x] where [e] is an object; other receivers are left as they
    are. *)
Definition set_prop (e : val) (k : string) (x : val) : val :=
  match e with
  | JObj fs => JObj (<[k := x]> fs)
  | JFn r fs => JFn r (<[k := x]> fs)
  | _ => e
  end.

(** [a || b] and [a && b] on values. *)
Definition or_else (a b : val) : val := if truthy a then a else b.
Definition and_then (a b : val) : val := if truthy a then b else a.

End Js.
Import Js.

(** ** Template assembly ([Renderer.getTemplateHtml], lines 207-229) *)

(** One entry of the bundle that vue-meta's [inject()] returns; [text] takes
    the optional argument of the call ([JUndefined] when it is omitted). *)
Record MetaItem := { text : val -> string }.

Record MetaBundle := {
  title : MetaItem;
  htmlAttrs : MetaItem;
  bodyAttrs : MetaItem;
  link : MetaItem;
  style : MetaItem;
  script : MetaItem;
  noscript : MetaItem;
  meta : MetaItem
}.

Record Template := { t_head : string; t_tail : string }.

Definition nl : string := String "010"%char EmptyString.

Definition bodyOpt : val := JObj {[ "body" := JBool true ]}.

Definition getTemplateHtml (m : MetaBundle) (state globalVars : val) : Template :=
  let head :=
    "<!DOCTYPE html>" +:+ nl +:+
    "<html " +:+ text (htmlAttrs m) JUndefined +:+ ">" +:+ nl +:+
    "<head>" +:+ nl +:+
    text (meta m) JUndefined +:+ nl +:+
    text (title m) JUndefined +:+ nl +:+
    text (link m) JUndefined +:+ nl +:+
    text (style m) JUndefined +:+ nl +:+
    text (script m) JUndefined +:+ nl +:+
    text (noscript m) JUndefined +:+ nl +:+
    "</head>" +:+ nl +:+
    "<body " +:+ text (bodyAttrs m) JUndefined +:+ ">" +:+ nl +:+
    "  " in
  let tail :=
    nl +:+ text (script m) bodyOpt +:+ "</body>" +:+ nl +:+ "</html>" in
  {| t_head := head; t_tail := tail |}.

(** ** Render context (lines 145-149 and 174-178) *)

(** [{state: state || {}, url: options ? options.url : '/'}] *)
Definition render_context (state options : val) : val :=
  JObj {[ "state" := or_else state (JObj ∅);
          "url" := if truthy options then member options "url" else JStr "/" ]}.

(** [options && options.plain] *)
Definition isPlain (options : val) : val :=
  and_then options (member options "plain").

(** ** Stream Transform *)

Module StreamTransform.

Inductive Phase := BeforeFirstChunk | Streaming | Done.

(** What the upstream (the body stream) does, one event at a time. *)
Inductive Upstream :=
| Chunk (c : string)
| End
| Error (e : val).

(** What the transform does downstream. *)
Inductive Output :=
| Emit (c : string)
| Complete
| Fail (e : val).

Record t := { head : string; tail : string; phase : Phase }.

(** [new StreamTransform(head, tail)] (line 168) *)
Definition create (h tl : string) : t :=
  {| head := h; tail := tl; phase := BeforeFirstChunk |}.

Definition enter (p : Phase) (tr : t) : t :=
  {| head := head tr; tail := tail tr; phase := p |}.

(** Modelled from the spec: the class [StreamTransform] of [./transform],
    which [renderer.js] requires (line 7) and instantiates (line 168), is
    not among the sources.  This is the machine of the spec's section 4.4
    and design notes: states [BeforeFirstChunk], [Streaming], [Done]; the
    head fragment goes out on the first chunk, chunks pass through
    unchanged, the tail fragment goes out on a clean end of stream only, an
    upstream error is forwarded without the tail.  Nothing happens once the
    machine is [Done]. *)
Definition step (tr : t) (ev : Upstream) : t * list Output :=
  match phase tr, ev with
  | Done, _ => (tr, [])
  | BeforeFirstChunk, Chunk c => (enter Streaming tr, [Emit (head tr); Emit c])
  | Streaming, Chunk c => (tr, [Emit c])
  | _, End => (enter Done tr, [Emit (tail tr); Complete])
  | _, Error e => (enter Done tr, [Fail e])
  end.

Fixpoint run (tr : t) (evs : list Upstream) : list Output :=
  match evs with
  | [] => []
  | ev :: evs' => let '(tr', out) := step tr ev in out ++ run tr' evs'
  end.

End StreamTransform.

(** ** The process, the Renderer instance and its collaborators *)

Definition loc := nat.

(** The class that [require('vue')] exports: one per process. *)
Inductive VueClass := VueGlobal.

(** [emit('ready')] and [emit('error', payload)] on the Renderer. *)
Inductive Event :=
| EvReady
| EvError (payload : val).

(** [this.options]: the two sequences are arrays held by reference. *)
Record Options := {
  opt_head : val;
  plugins : loc;
  preCompile : loc;
  globals : val
}.

(** The [options] argument of the constructor: every field may be left out. *)
Record RendererOptionParams := {
  p_head : option val;
  p_plugins : option loc;
  p_preCompile : option loc;
  p_globals : option val
}.

Record St := {
  heap : gmap loc (list val);   (* the arrays of the process *)
  options : Options;            (* this.options *)
  this_Vue : option VueClass;   (* this.Vue *)
  vue_uses : list val;          (* arguments of Vue.use, oldest first *)
  constructed : list val;       (* arguments of new VueClass(...), oldest first *)
  emitted : list Event;         (* events emitted on the Renderer, oldest first *)
  unhandled : list val          (* rejections that no handler receives *)
}.

Definition set_heap (h : gmap loc (list val)) (st : St) : St :=
  {| heap := h; options := options st; this_Vue := this_Vue st;
     vue_uses := vue_uses st; constructed := constructed st;
     emitted := emitted st; unhandled := unhandled st |}.

(** [this.Vue = Vue] *)
Definition set_Vue (V : VueClass) (st : St) : St :=
  {| heap := heap st; options := options st; this_Vue := Some V;
     vue_uses := vue_uses st; constructed := constructed st;
     emitted := emitted st; unhandled := unhandled st |}.

(** [Vue.use(x)], seen from the Renderer: the call is recorded. *)
Definition Vue_use (x : val) (st : St) : St :=
  {| heap := heap st; options := options st; this_Vue := this_Vue st;
     vue_uses := vue_uses st ++ [x]; constructed := constructed st;
     emitted := emitted st; unhandled := unhandled st |}.

Definition record_new (o : val) (st : St) : St :=
  {| heap := heap st; options := options st; this_Vue := this_Vue st;
     vue_uses := vue_uses st; constructed := constructed st ++ [o];
     emitted := emitted st; unhandled := unhandled st |}.

(** [this.emit(...)] *)
Definition emit (ev : Event) (st : St) : St :=
  {| heap := heap st; options := options st; this_Vue := this_Vue st;
     vue_uses := vue_uses st; constructed := constructed st;
     emitted := emitted st ++ [ev]; unhandled := unhandled st |}.

Definition record_unhandled (e : val) (st : St) : St :=
  {| heap := heap st; options := options st; this_Vue := this_Vue st;
     vue_uses := vue_uses st; constructed := constructed st;
     emitted := emitted st; unhandled := unhandled st ++ [e] |}.

(** The array at a location. *)
Definition arr (h : gmap loc (list val)) (l : loc) : list val :=
  default [] (h !! l).

(** A component instance, as far as the Renderer looks into it. *)
Record Component := {
  dollar_options : gmap string val;      (* component.$options *)
  _data : val                             (* component._data *)
}.

Definition set_data (d : val) (c : Component) : Component :=
  {| dollar_options := dollar_options c; _data := d |}.

(** The collaborators: the compiler, the Vue runtime, the render primitive,
    vue-meta and the error classes of [../error]. *)
Record Env := {
  compiler_import : string -> Settled val val;
  compiler_load : list val -> Settled val unit;
  Vue_new : val -> Component;
  vueRenderer_renderToString : Component -> val * string * Component;
  vueRenderer_renderToStream :
    Component -> list StreamTransform.Upstream * Component;
  meta_inject : Component -> MetaBundle;
  instanceof_CompilerError : val -> bool;
  new_RenderError : val -> gmap string val;
  new_BaseError : val -> gmap string val
}.

(** ** Construction and [init] (lines 21-64) *)

Definition default_plugins : loc := 0.
Definition default_preCompile : loc := 1.

Definition defaultRendererOptions : Options :=
  {| opt_head := JObj ∅; plugins := default_plugins;
     preCompile := default_preCompile; globals := JObj ∅ |}.

(** The arrays that exist once the module is loaded. *)
Definition module_heap : gmap loc (list val) :=
  {[ default_plugins := []; default_preCompile := [] ]}.

(** [Object.assign({}, defaultRendererOptions, options)] *)
Definition merge_options (o : option RendererOptionParams) : Options :=
  match o with
  | None => defaultRendererOptions
  | Some p =>
      {| opt_head := default (opt_head defaultRendererOptions) (p_head p);
         plugins := default (plugins defaultRendererOptions) (p_plugins p);
         preCompile := default (preCompile defaultRendererOptions) (p_preCompile p);
         globals := default (globals defaultRendererOptions) (p_globals p) |}
  end.

(** Lines 50-56: collect the string-valued plugins and push them onto
    [this.options.preCompile]; the result carries the array handed to
    [compiler.load]. *)
Definition init_sync (st : St) : St * list val :=
  let needCompiledPlugin := omap is_string (arr (heap st) (plugins (options st))) in
  let pc := preCompile (options st) in
  let h := <[pc := arr (heap st) pc ++ (JStr <$> needCompiledPlugin)]> (heap st) in
  (set_heap h st, arr h pc).

(** Lines 58-63: what happens when the promise of [compiler.load] settles. *)
Definition init_settle (env : Env) (r : Settled val unit) (st : St) : St :=
  match r with
  | Fulfilled _ => emit EvReady st
  | Rejected e => emit (EvError (JObj (new_BaseError env e))) st
  | Forever => st
  end.

Definition init (env : Env) (st : St) : St :=
  let '(st', arg) := init_sync st in
  init_settle env (compiler_load env arg) st'.

(** [new Renderer(compiler, options)] in a process whose arrays are [h] and
    whose Vue class has seen the calls [uses]. *)
Definition Renderer_new (env : Env) (h : gmap loc (list val)) (uses : list val)
    (o : option RendererOptionParams) : St :=
  init env {| heap := h; options := merge_options o; this_Vue := None;
              vue_uses := uses; constructed := []; emitted := [];
              unhandled := [] |}.

(** ** [getVueClass] (lines 72-104) *)

(** What [Vue.use] receives for a loaded plugin value: [plugin.default] when
    that has an [install], the value itself otherwise (lines 79-83, 95-99). *)
Definition installable (plugin : val) : val :=
  let d := member plugin "default" in
  if truthy (and_then d (member d "install")) then d else plugin.

(** One round of the [forEach] body for a loaded value; [plugin.default]
    throws when the value is [null]/[undefined]. *)
Definition install (plugin : val) (st : St) : Completion val St :=
  match get_prop plugin "default" with
  | Throws e => Throws e
  | Returns d =>
      if truthy (and_then d (member d "install"))
      then Returns (Vue_use d st)
      else Returns (Vue_use plugin st)
  end.

(** Lines 75-84: strings are collected, loaded values are installed on the
    spot.  An exception leaves the installations done so far in place. *)
Fixpoint scan_plugins (ps : list val) (needCompiledPlugins : list string)
    (st : St) : St * Completion val (list string) :=
  match ps with
  | [] => (st, Returns needCompiledPlugins)
  | plugin :: ps' =>
      match is_string plugin with
      | Some s => scan_plugins ps' (needCompiledPlugins ++ [s]) st
      | None =>
          match install plugin st with
          | Returns st' => scan_plugins ps' needCompiledPlugins st'
          | Throws e => (st, Throws e)
          end
      end
  end.

(** Lines 93-100: the imported modules are installed in array order. *)
Fixpoint install_all (mods : list val) (st : St) : St * Completion val unit :=
  match mods with
  | [] => (st, Returns tt)
  | plugin :: mods' =>
      match install plugin st with
      | Returns st' => install_all mods' st'
      | Throws e => (st, Throws e)
      end
  end.

(** What the synchronous part of [getVueClass] returns: an already resolved
    promise, or [Promise.all] over the imports of the given paths with the
    continuation of lines 92-103 attached. *)
Inductive VuePromise :=
| Resolved (V : VueClass)
| Awaiting (paths : list string).

(** Lines 73-91. *)
Definition getVueClass_sync (st : St) : St * Completion val VuePromise :=
  match this_Vue st with
  | Some V => (st, Returns (Resolved V))
  | None =>
      match scan_plugins (arr (heap st) (plugins (options st))) [] st with
      | (st', Throws e) => (st', Throws e)
      | (st', Returns needCompiledPlugins) =>
          if (length needCompiledPlugins =? 0)%nat
          then (set_Vue VueGlobal st', Returns (Resolved VueGlobal))
          else (st', Returns (Awaiting needCompiledPlugins))
      end
  end.

(** Lines 92-103: the continuation, run with the array of imported modules.
    An exception inside it rejects the promise. *)
Definition getVueClass_then (mods : list val) (st : St)
    : St * Settled val VueClass :=
  match install_all mods st with
  | (st', Throws e) => (st', Rejected e)
  | (st', Returns _) => (set_Vue VueGlobal st', Fulfilled VueGlobal)
  end.

(** [Promise.all] by outcome: the values in the order of the input once
    every promise is fulfilled.  When several promises reject, the promises
    are taken to settle in the order of the input, so the leftmost rejection
    is the one reported. *)
Fixpoint promise_all {E A : Type} (ps : list (Settled E A)) : Settled E (list A) :=
  match ps with
  | [] => Fulfilled []
  | p :: ps' =>
      match p, promise_all ps' with
      | Rejected e, _ => Rejected e
      | _, Rejected e => Rejected e
      | Fulfilled a, Fulfilled l => Fulfilled (a :: l)
      | _, _ => Forever
      end
  end.

(** [Promise.all([p, q])] for two promises of different types. *)
Definition promise_both {E A B : Type} (p : Settled E A) (q : Settled E B)
    : Settled E (A * B) :=
  match p, q with
  | Rejected e, _ => Rejected e
  | _, Rejected e => Rejected e
  | Fulfilled a, Fulfilled b => Fulfilled (a, b)
  | _, _ => Forever
  end.

(** [p.then(f)] for a callback that returns a plain value or throws. *)
Definition then_ {A B : Type} (p : Settled val A) (f : A -> Completion val B)
    : Settled val B :=
  match p with
  | Fulfilled a =>
      match f a with
      | Returns b => Fulfilled b
      | Throws e => Rejected e
      end
  | Rejected e => Rejected e
  | Forever => Forever
  end.

(** One call of [getVueClass], followed until its promise settles, with no
    other call in between. *)
Definition getVueClass (env : Env) (st : St)
    : St * Completion val (Settled val VueClass) :=
  match getVueClass_sync st with
  | (st', Throws e) => (st', Throws e)
  | (st', Returns (Resolved V)) => (st', Returns (Fulfilled V))
  | (st', Returns (Awaiting paths)) =>
      match promise_all (compiler_import env <$> paths) with
      | Fulfilled mods =>
          let '(st'', r) := getVueClass_then mods st' in (st'', Returns r)
      | Rejected e => (st', Returns (Rejected e))
      | Forever => (st', Returns Forever)
      end
  end.

(** ** [getComponent] (lines 114-133) *)

(** [object => object.default || object] (line 117) *)
Definition unwrap_default (object : val) : Completion val val :=
  match get_prop object "default" with
  | Throws e => Throws e
  | Returns d => Returns (or_else d object)
  end.

(** [component.$options.k] *)
Definition option_of (c : Component) (k : string) : val :=
  default JUndefined (dollar_options c !! k).

(** Lines 119-131: the continuation of [Promise.all], given the component
    definition.  The promise built on line 123 has no [reject]: when the
    promise of [asyncData()] rejects, nothing handles the rejection and the
    promise of line 123 never settles. *)
Definition getComponent_then (env : Env) (VueOptions context : val) (st : St)
    : St * Settled val Component :=
  let SSRVueOptions :=
    JObj (assign (assign ∅ VueOptions) (JObj {[ "$context" := context ]})) in
  let component := Vue_new env SSRVueOptions in
  let st := record_new SSRVueOptions st in
  let asyncData := option_of component "asyncData" in
  if truthy asyncData then
    match asyncData with
    | JFn ret _ =>
        match ret with
        | Fulfilled data =>
            let merged := assign (assign ∅ (option_of component "data")) data in
            (st, Fulfilled (set_data (JObj merged) component))
        | Rejected e => (record_unhandled e st, Forever)
        | Forever => (st, Forever)
        end
    | _ => (st, Rejected (TypeError "component.$options.asyncData is not a function"))
    end
  else (st, Fulfilled component).

Definition getComponent (env : Env) (path : string) (context : val) (st : St)
    : St * Completion val (Settled val Component) :=
  match getVueClass env st with
  | (st1, Throws e) => (st1, Throws e)
  | (st1, Returns pVue) =>
      let pOptions := then_ (compiler_import env path) unwrap_default in
      match promise_both pVue pOptions with
      | Fulfilled (_, VueOptions) =>
          let '(st2, r) := getComponent_then env VueOptions context st1 in
          (st2, Returns r)
      | Rejected e => (st1, Returns (Rejected e))
      | Forever => (st1, Returns Forever)
      end
  end.

(** ** [renderToString] (lines 173-196) *)

Definition renderToString (env : Env) (path : string) (state opts : val) (st : St)
    : St * Completion val (Settled val string) :=
  let context := render_context state opts in
  let plain := isPlain opts in
  match getComponent env path context st with
  | (st1, Throws e) => (st1, Throws e)
  | (st1, Returns (Rejected e)) => (st1, Returns (Rejected e))
  | (st1, Returns Forever) => (st1, Returns Forever)
  | (st1, Returns (Fulfilled component)) =>
      let '(e, result, rendered) := vueRenderer_renderToString env component in
      if truthy e then
        (st1, Returns (Rejected (set_prop e "component" (JStr path))))
      else if truthy plain then
        (st1, Returns (Fulfilled result))
      else
        let indexHtml :=
          getTemplateHtml (meta_inject env rendered) (member context "state")
            (globals (options st1)) in
        (st1, Returns (Fulfilled (t_head indexHtml +:+ result +:+ t_tail indexHtml)))
  end.

(** ** [renderToStream] (lines 144-171) *)

(** The body stream of the render primitive: what it is going to produce,
    and the listeners registered for its ['error'] event. *)
Record BodyStream := {
  source : list StreamTransform.Upstream;
  error_listeners : list (val -> St -> St)
}.

(** [bodyStream.on('error', f)] *)
Definition on_error (f : val -> St -> St) (b : BodyStream) : BodyStream :=
  {| source := source b; error_listeners := error_listeners b ++ [f] |}.

(** The body stream emits ['error'] with [e]: every listener runs. *)
Definition emit_error (b : BodyStream) (e : val) (st : St) : St :=
  fold_left (fun s f => f e s) (error_listeners b) st.

(** What the promise of [renderToStream] resolves with. *)
Inductive Readable :=
| PlainBody (b : BodyStream)
| Piped (b : BodyStream) (tr : StreamTransform.t).

Definition body_of (r : Readable) : BodyStream :=
  match r with
  | PlainBody b | Piped b _ => b
  end.

(** The listener of lines 153-163. *)
Definition body_error_listener (env : Env) (path : string) (state : val)
    (e : val) (st : St) : St :=
  let error :=
    if instanceof_CompilerError env e then e
    else set_prop (set_prop (JObj (new_RenderError env e))
                     "component" (JStr path)) "state" state in
  emit (EvError error) st.

Definition renderToStream (env : Env) (path : string) (state opts : val) (st : St)
    : St * Completion val (Settled val Readable) :=
  let context := render_context state opts in
  let plain := isPlain opts in
  match getComponent env path context st with
  | (st1, Throws e) => (st1, Throws e)
  | (st1, Returns (Rejected e)) => (st1, Returns (Rejected e))
  | (st1, Returns Forever) => (st1, Returns Forever)
  | (st1, Returns (Fulfilled component)) =>
      let '(chunks, rendered) := vueRenderer_renderToStream env component in
      let bodyStream :=
        on_error (body_error_listener env path state)
          {| source := chunks; error_listeners := [] |} in
      if truthy plain then
        (st1, Returns (Fulfilled (PlainBody bodyStream)))
      else
        let template :=
          getTemplateHtml (meta_inject env rendered) (member context "state")
            (globals (options st1)) in
        let transform :=
          StreamTransform.create (t_head template) (t_tail template) in
        (st1, Returns (Fulfilled (Piped bodyStream transform)))
  end.

(** ** Calls of [getVueClass] that overlap in time *)

(** A call that has been made: its [Promise.all] is still waiting (one slot
    per import, filled when that import is fulfilled), or its promise has
    settled, or the call threw. *)
Inductive Call :=
| Waiting (paths : list string) (slots : list (option val))
| Finished (r : Settled val VueClass)
| Threw (e : val).

Record World := { st : St; calls : list Call }.

(** What can happen next: a new call of [getVueClass]; the import number
    [idx] of call number [call] settles; the continuation of call number
    [call] runs (it does so only once every import is fulfilled). *)
Inductive Ev :=
| Invoke
| ImportSettles (call idx : nat)
| RunThen (call : nat).

Definition set_call (c : nat) (x : Call) (w : World) : World :=
  {| st := st w; calls := <[c := x]> (calls w) |}.

Definition invoke (w : World) : World :=
  match getVueClass_sync (st w) with
  | (st', Throws e) => {| st := st'; calls := calls w ++ [Threw e] |}
  | (st', Returns (Resolved V)) =>
      {| st := st'; calls := calls w ++ [Finished (Fulfilled V)] |}
  | (st', Returns (Awaiting paths)) =>
      {| st := st';
         calls := calls w ++ [Waiting paths (replicate (length paths) None)] |}
  end.

Definition import_settles (env : Env) (c i : nat) (w : World) : World :=
  match calls w !! c with
  | Some (Waiting paths slots) =>
      match paths !! i, slots !! i with
      | Some p, Some None =>
          match compiler_import env p with
          | Fulfilled m => set_call c (Waiting paths (<[i := Some m]> slots)) w
          | Rejected e => set_call c (Finished (Rejected e)) w
          | Forever => w
          end
      | _, _ => w
      end
  | _ => w
  end.

(** The array [Promise.all] resolves with, once no slot is empty. *)
Definition filled (slots : list (option val)) : option (list val) :=
  mapM id slots.

Definition run_then (c : nat) (w : World) : World :=
  match calls w !! c with
  | Some (Waiting paths slots) =>
      match filled slots with
      | Some mods =>
          let '(st', r) := getVueClass_then mods (st w) in
          {| st := st'; calls := <[c := Finished r]> (calls w) |}
      | None => w
      end
  | _ => w
  end.

Definition step (env : Env) (w : World) (ev : Ev) : World :=
  match ev with
  | Invoke => invoke w
  | ImportSettles c i => import_settles env c i w
  | RunThen c => run_then c w
  end.

Definition run (env : Env) (evs : list Ev) (w : World) : World :=
  fold_left (step env) evs w.

(** A renderer on which no call of [getVueClass] has been made yet. *)
Definition fresh (s : St) : World := {| st := s; calls := [] |}.

(** A call is in flight while its [Promise.all] is waiting. *)
Definition in_flight (c : Call) : bool :=
  match c with
  | Waiting _ _ => true
  | _ => false
  end.

(** ** The render context as the specification words it *)

(** [{state: state ?? {}, url: options?.url ?? '/'}]: this follows the
    specification's formula, not the source, and is only compared with
    [render_context]. *)
Definition render_context_as_specified (state options : val) : val :=
  let url := if nullish options then JUndefined else member options "url" in
  JObj {[ "state" := if nullish state then JObj ∅ else state;
          "url" := if nullish url then JStr "/" else url ]}.

(** The option objects handed to [new VueClass] between two states. *)
Definition constructed_since (before after : St) : list val :=
  drop (length (constructed before)) (constructed after).

(** The head fragment, once, when there is a chunk to put it in front of. *)
Definition head_once (h : string) (cs : list string) : list string :=
  match cs with
  | [] => []
  | _ :: _ => [h]
  end.

(** ** Vocabulary of the properties *)

(** [only_installs s s']: from [s] to [s'] nothing changed except the record
    of [Vue.use] calls and [this.Vue]. *)
Definition only_installs (s s' : St) : Prop :=
  heap s' = heap s /\ options s' = options s /\
  constructed s' = constructed s /\ emitted s' = emitted s /\
  unhandled s' = unhandled s.

(** [keeps_options s s']: the options object and every array of the
    process are the same in [s'] as in [s]. *)
Definition keeps_options (s s' : St) : Prop :=
  heap s' = heap s /\ options s' = options s.

(** [Vue.use] on each of [xs] in turn. *)
Definition Vue_use_all (xs : list val) (s : St) : St :=
  fold_left (fun acc x => Vue_use x acc) xs s.

(** The configured plugins that are loaded values, in configured order. *)
Definition loaded (ps : list val) : list val :=
  filter (fun p => is_string p = None) ps.

(** The imported modules in the order in which their imports settled: the
    installation order that the specification describes for path plugins.
    An import settles once, so only the first mention of an index counts. *)
Fixpoint completion_order (sched : list nat) (mods : list val) (seen : list nat)
    : list val :=
  match sched with
  | [] => []
  | i :: sched' =>
      match mods !! i with
      | Some m =>
          if bool_decide (i ∈ seen) then completion_order sched' mods seen
          else m :: completion_order sched' mods (i :: seen)
      | None => completion_order sched' mods seen
      end
  end.

(** The slots of a waiting [Promise.all] hold nothing but the modules of
    the imports, each at its own index. *)
Definition agrees (mods : list val) (slots : list (option val)) : Prop :=
  length slots = length mods
  /\ forall i m, slots !! i = Some (Some m) -> mods !! i = Some m.

(** The import number [j] has been fulfilled. *)
Definition settled_at (slots : list (option val)) (j : nat) : Prop :=
  exists m, slots !! j = Some (Some m).

(** One call of [getVueClass] made on [s], whose imports settle in the
    order [sched] before its continuation runs. *)
Definition single_call (sched : list nat) : list Ev :=
  Invoke :: (ImportSettles 0 <$> sched) ++ [RunThen 0].

(** The constructor's [options] argument leaves [preCompile] out, so that
    the default array is taken. *)
Definition omits_preCompile (o : option RendererOptionParams) : Prop :=
  match o with
  | None => True
  | Some p => p_preCompile p = None
  end.

(** The events that the settling of [compiler.load] puts on the Renderer. *)
Definition load_events (env : Env) (r : Settled val unit) : list Event :=
  match r with
  | Fulfilled _ => [EvReady]
  | Rejected e => [EvError (JObj (new_BaseError env e))]
  | Forever => []
  end.

(** The exception raised by reading [default] from [null]/[undefined]. *)
Definition no_default : val :=
  TypeError ("Cannot read property '" +:+ "default" +:+ "'").

(** The string-valued entries of the plugin array of a renderer. *)
Definition configured_paths (s : St) : list string :=
  omap is_string (arr (heap s) (plugins (options s))).

(** What [Vue.use] receives for the loaded entries of the plugin array. *)
Definition configured_installables (s : St) : list val :=
  installable <$> loaded (arr (heap s) (plugins (options s))).

(** ** Concrete collaborators for the examples *)

Module Demo.

Definition item (s : string) : MetaItem := {| text := fun _ => s |}.

Definition script_item : MetaItem :=
  {| text := fun a =>
       if truthy (member a "body") then "<script>late</script>"
       else "<script>early</script>" |}.

Definition bundle : MetaBundle :=
  {| title := item "<title>demo</title>"; htmlAttrs := item "lang=en";
     bodyAttrs := item "class=app"; link := item ""; style := item "";
     script := script_item; noscript := item ""; meta := item "<meta>" |}.

(** An installable plugin object, told apart by its name. *)
Definition plugin (name : string) : val :=
  JObj {[ "name" := JStr name; "install" := JFn Forever ∅ ]}.

(** A module whose [default] export is the plugin. *)
Definition wrapped (name : string) : val :=
  JObj {[ "default" := plugin name ]}.

(** A component definition with static data [{b: 2}] and an [asyncData]
    whose promise settles as [r]. *)
Definition definition (r : Settled val val) : val :=
  JObj {[ "data" := JObj {[ "b" := JNum 2 ]}; "asyncData" := JFn r ∅ ]}.

(** A component definition without [asyncData]. *)
Definition plain_definition : val :=
  JObj {[ "data" := JObj {[ "b" := JNum 2 ]} ]}.

Definition env (imp : string -> Settled val val) : Env :=
  {| compiler_import := imp;
     compiler_load := fun _ => Fulfilled tt;
     Vue_new := fun o => {| dollar_options := own o; _data := member o "data" |};
     vueRenderer_renderToString := fun c => (JNull, "<div>hello</div>", c);
     vueRenderer_renderToStream :=
       fun c => ([StreamTransform.Chunk "x"; StreamTransform.Chunk "y";
                  StreamTransform.End], c);
     meta_inject := fun _ => bundle;
     instanceof_CompilerError := fun e => truthy (member e "compiler");
     new_RenderError := fun e => {[ "name" := JStr "RenderError"; "cause" := e ]};
     new_BaseError := fun e => {[ "name" := JStr "BaseError"; "cause" := e ]} |}.

(** The compiler of the examples: two plugin modules and three components. *)
Definition imports (async : Settled val val) (path : string) : Settled val val :=
  if String.eqb path "a" then Fulfilled (plugin "A")
  else if String.eqb path "b" then Fulfilled (wrapped "B")
  else if String.eqb path "page" then Fulfilled (definition async)
  else if String.eqb path "static" then Fulfilled plain_definition
  else Rejected (JObj {[ "name" := JStr "CompilerError"; "compiler" := JBool true ]}).

(** A renderer state whose plugin array (at location 2) holds [ps]. *)
Definition state_with (ps : list val) : St :=
  {| heap := <[2 := ps]> module_heap;
     options := {| opt_head := JObj ∅; plugins := 2;
                   preCompile := default_preCompile; globals := JObj ∅ |};
     this_Vue := None; vue_uses := []; constructed := []; emitted := [];
     unhandled := [] |}.

Definition boom : val := JObj {[ "message" := JStr "boom" ]}.

(** Arrays made by the caller: plugins at location 2, preCompile at 3. *)
Definition caller_heap : gmap loc (list val) :=
  <[2 := [JStr "a"; plugin "P"]]> (<[3 := [JStr "x"]]> module_heap).

(** [{plugins: <array 2>, preCompile: <array 3>}] *)
Definition params : RendererOptionParams :=
  {| p_head := None; p_plugins := Some 2; p_preCompile := Some 3;
     p_globals := None |}.

(** [{plugins: <array 2>}]: [preCompile] is left to the defaults. *)
Definition params_without_preCompile : RendererOptionParams :=
  {| p_head := None; p_plugins := Some 2; p_preCompile := None;
     p_globals := None |}.

End Demo.

(** Further collaborators: a compiler whose [load] fails, and one whose
    import of the plugin path [a] fails. *)
Module Cases.

Definition failing_load : Env :=
  {| compiler_import := Demo.imports Forever;
     compiler_load := fun _ => Rejected Demo.boom;
     Vue_new := Vue_new (Demo.env (Demo.imports Forever));
     vueRenderer_renderToString := fun c => (Demo.boom, "", c);
     vueRenderer_renderToStream :=
       vueRenderer_renderToStream (Demo.env (Demo.imports Forever));
     meta_inject := fun _ => Demo.bundle;
     instanceof_CompilerError := fun e => truthy (member e "compiler");
     new_RenderError := fun e => {[ "name" := JStr "RenderError"; "cause" := e ]};
     new_BaseError := fun e => {[ "name" := JStr "BaseError"; "cause" := e ]} |}.

Definition broken_imports (path : string) : Settled val val :=
  if String.eqb path "a" then Rejected Demo.boom
  else if String.eqb path "nothing" then Fulfilled JUndefined
  else if String.eqb path "module" then
    Fulfilled (JObj {[ "default" := Demo.plain_definition ]})
  else Demo.imports Forever path.

(** A renderer state whose [plugins] and [preCompile] are one array. *)
Definition aliased : St :=
  {| heap := Demo.caller_heap;
     options := {| opt_head := JObj ∅; plugins := 2; preCompile := 2;
                   globals := JObj ∅ |};
     this_Vue := None; vue_uses := []; constructed := []; emitted := [];
     unhandled := [] |}.

End Cases.

(** * Properties *)

(** ** Values *)

Lemma append_assoc (x y z : string) : (x +:+ y) +:+ z = x +:+ (y +:+ z).
Proof.
  induction x as [|c x IH]; [reflexivity |].
  change (String c ((x +:+ y) +:+ z) = String c (x +:+ (y +:+ z))).
  now f_equal.
Qed.

Lemma get_prop_not_nullish (v : val) (k : string) :
  nullish v = false -> get_prop v k = Returns (member v k).
Proof. unfold get_prop. now intros ->. Qed.

Lemma member_assign (t : gmap string val) (src : val) (k : string) :
  member (JObj (assign t src)) k =
  match own src !! k with
  | Some v => v
  | None => member (JObj t) k
  end.
Proof.
  unfold member, assign; simpl.
  destruct (own src !! k) as [v|] eqn:E.
  - now rewrite (lookup_union_Some_l _ _ _ _ E).
  - now rewrite (lookup_union_r _ _ _ E).
Qed.

Lemma member_set_prop_eq (fs : gmap string val) (k : string) (x : val) :
  member (set_prop (JObj fs) k x) k = x.
Proof. unfold member; simpl. now rewrite lookup_insert_eq. Qed.

(** ** Template assembly *)

(** C10: the fragments that [getTemplateHtml] returns depend on the metadata
    bundle alone; the state and the globals passed with it play no part. *)
Theorem getTemplateHtml_depends_on_bundle_only
    (m : MetaBundle) (state1 globals1 state2 globals2 : val) :
  getTemplateHtml m state1 globals1 = getTemplateHtml m state2 globals2.
Proof. reflexivity. Qed.

Lemma template_head_doctype (m : MetaBundle) (s g : val) :
  exists a, t_head (getTemplateHtml m s g) = "<!DOCTYPE html>" +:+ a.
Proof. eexists. unfold getTemplateHtml; cbn [t_head]. reflexivity. Qed.

Lemma template_tail_closes (m : MetaBundle) (s g : val) :
  exists b, t_tail (getTemplateHtml m s g) = b +:+ "</html>".
Proof.
  exists (nl +:+ text (script m) bodyOpt +:+ "</body>" +:+ nl).
  unfold getTemplateHtml; cbn [t_tail].
  now rewrite !append_assoc.
Qed.

(** ** What an operation leaves alone *)

Lemma only_installs_refl (s : St) : only_installs s s.
Proof. repeat split. Qed.

Lemma only_installs_trans (s1 s2 s3 : St) :
  only_installs s1 s2 -> only_installs s2 s3 -> only_installs s1 s3.
Proof.
  unfold only_installs.
  intros (?&?&?&?&?) (?&?&?&?&?); repeat split; congruence.
Qed.

Lemma only_installs_Vue_use (x : val) (s : St) : only_installs s (Vue_use x s).
Proof. repeat split. Qed.

Lemma only_installs_set_Vue (V : VueClass) (s : St) : only_installs s (set_Vue V s).
Proof. repeat split. Qed.

Create HintDb frame.
#[local] Hint Resolve only_installs_refl only_installs_Vue_use
  only_installs_set_Vue : frame.

Lemma install_only_installs (p : val) (s s' : St) :
  install p s = Returns s' -> only_installs s s'.
Proof.
  unfold install. destruct (get_prop p "default") as [d|e]; [|discriminate].
  destruct (truthy _); intros [= <-]; auto with frame.
Qed.

Lemma scan_plugins_only_installs (ps : list val) (need : list string) (s : St) :
  only_installs s (scan_plugins ps need s).1.
Proof.
  revert need s. induction ps as [|p ps IH]; intros need s; simpl.
  - auto with frame.
  - destruct (is_string p); [apply IH|].
    destruct (install p s) as [s'|e] eqn:E; simpl; [|auto with frame].
    eapply only_installs_trans; [eapply install_only_installs, E | apply IH].
Qed.

Lemma install_all_only_installs (mods : list val) (s : St) :
  only_installs s (install_all mods s).1.
Proof.
  revert s. induction mods as [|p mods IH]; intros s; simpl.
  - auto with frame.
  - destruct (install p s) as [s'|e] eqn:E; simpl; [|auto with frame].
    eapply only_installs_trans; [eapply install_only_installs, E | apply IH].
Qed.

Lemma getVueClass_sync_only_installs (s : St) :
  only_installs s (getVueClass_sync s).1.
Proof.
  unfold getVueClass_sync. destruct (this_Vue s); [auto with frame|].
  pose proof (scan_plugins_only_installs (arr (heap s) (plugins (options s))) [] s) as H.
  destruct (scan_plugins _ _ _) as [s' [need|e]]; simpl in *; [|exact H].
  destruct (length need =? 0)%nat; simpl; [|exact H].
  eapply only_installs_trans; [exact H | auto with frame].
Qed.

Lemma getVueClass_then_only_installs (mods : list val) (s : St) :
  only_installs s (getVueClass_then mods s).1.
Proof.
  unfold getVueClass_then.
  pose proof (install_all_only_installs mods s) as H.
  destruct (install_all mods s) as [s' [[]|e]]; simpl in *; [|exact H].
  eapply only_installs_trans; [exact H | auto with frame].
Qed.

Lemma getVueClass_only_installs (env : Env) (s : St) :
  only_installs s (getVueClass env s).1.
Proof.
  unfold getVueClass.
  pose proof (getVueClass_sync_only_installs s) as H.
  destruct (getVueClass_sync s) as [s' [[V|paths]|e]]; simpl in *; try exact H.
  destruct (promise_all _) as [mods| |]; simpl; try exact H.
  pose proof (getVueClass_then_only_installs mods s') as H'.
  destruct (getVueClass_then mods s') as [s'' r]; simpl in *.
  eapply only_installs_trans; eassumption.
Qed.

Lemma only_installs_keeps_options (s s' : St) :
  only_installs s s' -> keeps_options s s'.
Proof. intros (?&?&_). now split. Qed.

(** What [getComponent] does to the record of constructed components: it
    adds nothing, or the one option object it built, whose [$context] is
    the context it was given. *)
Lemma getComponent_then_constructed (env : Env) (VueOptions context : val) (s : St) :
  let s' := (getComponent_then env VueOptions context s).1 in
  keeps_options s s' /\ emitted s' = emitted s /\
  exists o, constructed s' = constructed s ++ [o] /\ member o "$context" = context.
Proof.
  unfold getComponent_then.
  set (o := JObj (assign (assign ∅ VueOptions) (JObj {[ "$context" := context ]}))).
  assert (member o "$context" = context) as Ho.
  { unfold o. rewrite member_assign. simpl. now rewrite lookup_singleton_eq. }
  destruct (truthy (option_of (Vue_new env o) "asyncData")).
  - destruct (option_of (Vue_new env o) "asyncData") as [| | | | | |[data|e|] fs];
      simpl; (split; [now split|]); (split; [reflexivity|]); now exists o.
  - simpl. (split; [now split|]); (split; [reflexivity|]); now exists o.
Qed.

Lemma getComponent_frame (env : Env) (path : string) (context : val) (s : St) :
  let s' := (getComponent env path context s).1 in
  keeps_options s s' /\ emitted s' = emitted s /\
  forall o, o ∈ constructed_since s s' -> member o "$context" = context.
Proof.
  unfold getComponent, constructed_since.
  pose proof (getVueClass_only_installs env s) as H.
  destruct (getVueClass env s) as [s1 [pVue|e]]; simpl in *.
  2:{ destruct H as (?&?&Hc&?&?). repeat split; try assumption.
      intros o. rewrite Hc, drop_all. now intros ?%elem_of_nil. }
  destruct (promise_both pVue _) as [[V VueOptions]|e|] eqn:E; simpl.
  2,3: destruct H as (?&?&Hc&?&?); repeat split; try assumption;
       intros o; rewrite Hc, drop_all; now intros ?%elem_of_nil.
  pose proof (getComponent_then_constructed env VueOptions context s1) as H'.
  destruct (getComponent_then env VueOptions context s1) as [s2 r]; simpl in *.
  destruct H as (Hh&Ho&Hc&He&?), H' as ([Hh' Ho']&He'&o&Hc'&Hctx).
  repeat split; try congruence.
  intros o'. rewrite Hc', Hc, drop_app_length.
  now intros ->%list_elem_of_singleton.
Qed.

(** ** The render context *)

(** C8, as stated, fails: with options present but without [url] the
    context's [url] is [undefined], not ['/'] (first two parts), and a state
    that is falsy without being absent, such as [0], is replaced by the
    empty mapping where [??] would keep it (third part). *)
Lemma render_context_differs_from_specified :
  member (render_context JUndefined (JObj {[ "plain" := JBool true ]})) "url"
    = JUndefined
  /\ member (render_context_as_specified JUndefined
               (JObj {[ "plain" := JBool true ]})) "url" = JStr "/"
  /\ render_context (JNum 0) JUndefined
       <> render_context_as_specified (JNum 0) JUndefined.
Proof.
  split; [reflexivity|]. split; [reflexivity|].
  intros H. apply (f_equal (fun v => member v "state")) in H. discriminate H.
Qed.

(** C8, amended: both render calls build the context
    [{state: state || {}, url: options ? options.url : '/'}] and hand it to
    the component as [$context].  A state that is absent (or falsy) gives
    the empty mapping, any other state is kept; absent options give the url
    ['/'], options that are present give [options.url] as it is. *)
Theorem render_context_of_render_calls
    (env : Env) (path : string) (state opts : val) (s : St) :
  let ctx := render_context state opts in
  member ctx "state" = (if truthy state then state else JObj ∅)
  /\ member ctx "url" = (if truthy opts then member opts "url" else JStr "/")
  /\ (nullish state = true -> member ctx "state" = JObj ∅)
  /\ (nullish opts = true -> member ctx "url" = JStr "/")
  /\ (forall o, o ∈ constructed_since s (renderToString env path state opts s).1 ->
        member o "$context" = ctx)
  /\ (forall o, o ∈ constructed_since s (renderToStream env path state opts s).1 ->
        member o "$context" = ctx).
Proof.
  intros ctx.
  split; [reflexivity|]. split; [reflexivity|].
  split; [destruct state; simpl; intros H; try discriminate H; reflexivity|].
  split; [destruct opts; simpl; intros H; try discriminate H; reflexivity|].
  pose proof (getComponent_frame env path ctx s) as (_ & _ & H).
  split; intros o Ho; apply H; revert Ho.
  - unfold renderToString. fold ctx.
    destruct (getComponent env path ctx s) as [s1 [[c| |]|e]]; simpl; try done.
    destruct (vueRenderer_renderToString env c) as [[e result] rendered].
    destruct (truthy e); [done|]. now destruct (truthy (isPlain opts)).
  - unfold renderToStream. fold ctx.
    destruct (getComponent env path ctx s) as [s1 [[c| |]|e]]; simpl; try done.
    destruct (vueRenderer_renderToStream env c) as [chunks rendered].
    now destruct (truthy (isPlain opts)).
Qed.

(** A call that does construct a component, so that the two last parts of
    the theorem above speak of something. *)
Example render_context_reaches_component :
  constructed_since (Demo.state_with [])
    (renderToString (Demo.env (Demo.imports Forever)) "static"
       (JObj {[ "n" := JNum 1 ]}) (JObj {[ "plain" := JBool true ]})
       (Demo.state_with [])).1
  = [JObj {[ "data" := JObj {[ "b" := JNum 2 ]};
             "$context" := JObj {[ "state" := JObj {[ "n" := JNum 1 ]};
                                   "url" := JUndefined ]} ]}].
Proof. reflexivity. Qed.

(** ** [renderToString] *)

(** C4: when the render succeeds, a call without [plain] resolves with
    [head + body + tail], which begins with [<!DOCTYPE html>], ends with
    [</html>] and holds the body verbatim in between; a call with [plain]
    resolves with the body alone. *)
Theorem renderToString_resolves_with_document
    (env : Env) (path : string) (state opts : val) (s s1 : St)
    (component rendered : Component) (e : val) (result : string) :
  getComponent env path (render_context state opts) s
    = (s1, Returns (Fulfilled component)) ->
  vueRenderer_renderToString env component = (e, result, rendered) ->
  truthy e = false ->
  let template :=
    getTemplateHtml (meta_inject env rendered)
      (member (render_context state opts) "state") (globals (options s1)) in
  (truthy (isPlain opts) = true ->
     renderToString env path state opts s = (s1, Returns (Fulfilled result)))
  /\ (truthy (isPlain opts) = false ->
        renderToString env path state opts s
          = (s1, Returns (Fulfilled (t_head template +:+ result +:+ t_tail template)))
        /\ exists a b,
             t_head template +:+ result +:+ t_tail template
               = "<!DOCTYPE html>" +:+ a +:+ result +:+ b +:+ "</html>").
Proof.
  intros Hc Hr He template. unfold renderToString. rewrite Hc, Hr, He.
  split; intros ->; [reflexivity|]. split; [reflexivity|].
  destruct (template_head_doctype (meta_inject env rendered)
              (member (render_context state opts) "state")
              (globals (options s1))) as [a Ha].
  destruct (template_tail_closes (meta_inject env rendered)
              (member (render_context state opts) "state")
              (globals (options s1))) as [b Hb].
  exists a, b. fold template in Ha, Hb. rewrite Ha, Hb.
  now rewrite !append_assoc.
Qed.

Lemma renderToString_resolves_with_document_witness :
  renderToString (Demo.env (Demo.imports Forever)) "static" JUndefined
    (JObj {[ "plain" := JBool true ]}) (Demo.state_with [])
  = (record_new
       (JObj {[ "data" := JObj {[ "b" := JNum 2 ]};
                "$context" := render_context JUndefined
                                (JObj {[ "plain" := JBool true ]}) ]})
       (set_Vue VueGlobal (Demo.state_with [])),
     Returns (Fulfilled "<div>hello</div>")).
Proof.
  refine (proj1 (renderToString_resolves_with_document
                   (Demo.env (Demo.imports Forever)) "static" JUndefined
                   (JObj {[ "plain" := JBool true ]}) (Demo.state_with []) _
                   _ _ JNull "<div>hello</div>" _ _ _) _); reflexivity.
Defined.

(** The document of a call without [plain], character for character. *)
Example renderToString_document_example :
  (renderToString (Demo.env (Demo.imports Forever)) "static" JUndefined
     JUndefined (Demo.state_with [])).2
  = Returns (Fulfilled
      ("<!DOCTYPE html>" +:+ nl +:+ "<html lang=en>" +:+ nl +:+ "<head>" +:+ nl
       +:+ "<meta>" +:+ nl +:+ "<title>demo</title>" +:+ nl +:+ nl +:+ nl
       +:+ "<script>early</script>" +:+ nl +:+ nl +:+ "</head>" +:+ nl
       +:+ "<body class=app>" +:+ nl +:+ "  " +:+ "<div>hello</div>" +:+ nl
       +:+ "<script>late</script></body>" +:+ nl +:+ "</html>")).
Proof. reflexivity. Qed.

(** ** Stream Transform *)

Lemma transform_streaming (h tl : string) (cs : list string)
    (rest : list StreamTransform.Upstream) :
  StreamTransform.run
    {| StreamTransform.head := h; StreamTransform.tail := tl;
       StreamTransform.phase := StreamTransform.Streaming |}
    ((StreamTransform.Chunk <$> cs) ++ rest)
  = (StreamTransform.Emit <$> cs)
    ++ StreamTransform.run
         {| StreamTransform.head := h; StreamTransform.tail := tl;
            StreamTransform.phase := StreamTransform.Streaming |} rest.
Proof. induction cs as [|c cs IH]; [reflexivity|]. simpl. f_equal. exact IH. Qed.

Lemma transform_done (h tl : string) (evs : list StreamTransform.Upstream) :
  StreamTransform.run
    {| StreamTransform.head := h; StreamTransform.tail := tl;
       StreamTransform.phase := StreamTransform.Done |} evs = [].
Proof. induction evs as [|ev evs IH]; [reflexivity|]. simpl. exact IH. Qed.

(** Chunks first: the head fragment once before the first of them, then
    the chunks as they are, then whatever the rest of the input gives in
    the phase reached. *)
Lemma transform_chunks (h tl : string) (cs : list string)
    (rest : list StreamTransform.Upstream) :
  StreamTransform.run (StreamTransform.create h tl)
    ((StreamTransform.Chunk <$> cs) ++ rest)
  = (StreamTransform.Emit <$> (head_once h cs ++ cs))
    ++ StreamTransform.run
         {| StreamTransform.head := h; StreamTransform.tail := tl;
            StreamTransform.phase :=
              match cs with
              | [] => StreamTransform.BeforeFirstChunk
              | _ :: _ => StreamTransform.Streaming
              end |} rest.
Proof.
  destruct cs as [|c cs]; [reflexivity|].
  simpl. do 2 f_equal. apply transform_streaming.
Qed.

(** C2: for every head [h], tail [tl] and chunks [cs]: on a clean end the
    output is [h] (put before the first chunk), the chunks unchanged and in
    order, then [tl], then completion; on an upstream error after [cs] the
    output is [h], the chunks, then the error, and [tl] is never emitted,
    whatever the upstream does afterwards. *)
Theorem transform_brackets_the_body (h tl : string) (cs : list string) :
  StreamTransform.run (StreamTransform.create h tl)
    ((StreamTransform.Chunk <$> cs) ++ [StreamTransform.End])
  = (StreamTransform.Emit <$> (head_once h cs ++ cs ++ [tl]))
    ++ [StreamTransform.Complete]
  /\ forall (e : val) (later : list StreamTransform.Upstream),
       StreamTransform.run (StreamTransform.create h tl)
         ((StreamTransform.Chunk <$> cs) ++ StreamTransform.Error e :: later)
       = (StreamTransform.Emit <$> (head_once h cs ++ cs))
         ++ [StreamTransform.Fail e].
Proof.
  split; [|intros e later]; rewrite transform_chunks.
  - rewrite !fmap_app, <- !app_assoc. do 2 f_equal. now destruct cs.
  - f_equal. destruct cs; simpl; f_equal; apply transform_done.
Qed.

(** The two runs of the specification's example. *)
Example transform_example :
  StreamTransform.run (StreamTransform.create "H" "T")
    [StreamTransform.Chunk "x"; StreamTransform.Chunk "y"; StreamTransform.End]
  = [StreamTransform.Emit "H"; StreamTransform.Emit "x"; StreamTransform.Emit "y";
     StreamTransform.Emit "T"; StreamTransform.Complete]
  /\ StreamTransform.run (StreamTransform.create "H" "T")
       [StreamTransform.Chunk "x"; StreamTransform.Error Demo.boom]
     = [StreamTransform.Emit "H"; StreamTransform.Emit "x";
        StreamTransform.Fail Demo.boom].
Proof. split; reflexivity. Qed.

(** ** [renderToStream] *)

(** C3: once [renderToStream] has resolved with a stream, an error [e] on
    the body stream, whenever it comes, does one thing: it emits ['error']
    on the Renderer.  The promise is settled and stays so, and no rejection
    is produced.  The payload is [e] itself when [e] is a compiler error;
    otherwise it is a fresh render error whose [component] is the path and
    whose [state] is the state argument of the call. *)
Theorem stream_error_is_emitted_on_renderer
    (env : Env) (path : string) (state opts : val) (s s1 : St) (r : Readable)
    (e : val) (later : St) :
  renderToStream env path state opts s = (s1, Returns (Fulfilled r)) ->
  exists payload,
    let after := emit_error (body_of r) e later in
    emitted after = emitted later ++ [EvError payload]
    /\ unhandled after = unhandled later
    /\ heap after = heap later /\ options after = options later
    /\ this_Vue after = this_Vue later /\ vue_uses after = vue_uses later
    /\ constructed after = constructed later
    /\ (instanceof_CompilerError env e = true -> payload = e)
    /\ (instanceof_CompilerError env e = false ->
          payload = set_prop (set_prop (JObj (new_RenderError env e))
                                "component" (JStr path)) "state" state
          /\ member payload "component" = JStr path
          /\ member payload "state" = state).
Proof.
  unfold renderToStream.
  destruct (getComponent _ _ _ _) as [s' [[c| |]|x]]; try discriminate.
  destruct (vueRenderer_renderToStream env c) as [chunks rendered].
  set (payload :=
         if instanceof_CompilerError env e then e
         else set_prop (set_prop (JObj (new_RenderError env e))
                          "component" (JStr path)) "state" state).
  intros H. exists payload.
  assert (emit_error (body_of r) e later = emit (EvError payload) later) as ->.
  { destruct (truthy (isPlain opts)); injection H as _ <-; reflexivity. }
  unfold payload.
  repeat (split; [reflexivity|]). split.
  - now intros ->.
  - intros ->. split; [reflexivity|]. split.
    + unfold member; simpl. rewrite lookup_insert_ne by discriminate.
      now rewrite lookup_insert_eq.
    + apply member_set_prop_eq.
Qed.

Lemma stream_error_is_emitted_on_renderer_witness :
  exists payload,
    emitted (emit_error
               (body_of (Piped
                  {| source := [StreamTransform.Chunk "x"; StreamTransform.Chunk "y";
                                StreamTransform.End];
                     error_listeners :=
                       [body_error_listener (Demo.env (Demo.imports Forever))
                          "static" (JNum 7)] |}
                  (StreamTransform.create
                     (t_head (getTemplateHtml Demo.bundle JUndefined JUndefined))
                     (t_tail (getTemplateHtml Demo.bundle JUndefined JUndefined)))))
               Demo.boom (Demo.state_with []))
    = [EvError payload]
    /\ member payload "component" = JStr "static"
    /\ member payload "state" = JNum 7.
Proof.
  destruct (stream_error_is_emitted_on_renderer
              (Demo.env (Demo.imports Forever)) "static" (JNum 7) JUndefined
              (Demo.state_with []) _ _ Demo.boom (Demo.state_with [])
              eq_refl) as (payload & H1 & _ & _ & _ & _ & _ & _ & _ & H2).
  exists payload. split; [exact H1|]. exact (proj2 (H2 eq_refl)).
Defined.

(** ** [getComponent] and the async-data step *)

Lemma getComponent_reaches_construction
    (env : Env) (path : string) (context : val) (s s1 : St) (V : VueClass)
    (object : val) :
  getVueClass env s = (s1, Returns (Fulfilled V)) ->
  compiler_import env path = Fulfilled object ->
  nullish object = false ->
  getComponent env path context s
  = let '(s2, r) :=
      getComponent_then env (or_else (member object "default") object) context s1
    in (s2, Returns r).
Proof.
  intros HV Hi Hn. unfold getComponent. rewrite HV, Hi. simpl.
  unfold unwrap_default. now rewrite (get_prop_not_nullish _ _ Hn).
Qed.

(** C5: when the component declares an [asyncData] function whose promise
    is fulfilled with [data], [getComponent] resolves with the component
    only after [_data] has been set to the static [data] option overlaid
    with [data] (on a common key the async value wins); when the component
    declares none, [getComponent] resolves with the component as
    constructed. *)
Theorem getComponent_merges_async_data
    (env : Env) (path : string) (context : val) (s s1 : St) (V : VueClass)
    (object : val) :
  getVueClass env s = (s1, Returns (Fulfilled V)) ->
  compiler_import env path = Fulfilled object ->
  nullish object = false ->
  let VueOptions := or_else (member object "default") object in
  let SSRVueOptions :=
    JObj (assign (assign ∅ VueOptions) (JObj {[ "$context" := context ]})) in
  let component := Vue_new env SSRVueOptions in
  (forall (data : val) (fs : gmap string val),
     option_of component "asyncData" = JFn (Fulfilled data) fs ->
     exists ready,
       getComponent env path context s
         = (record_new SSRVueOptions s1, Returns (Fulfilled ready))
       /\ dollar_options ready = dollar_options component
       /\ forall k, member (_data ready) k
                    = match own data !! k with
                      | Some v => v
                      | None => member (option_of component "data") k
                      end)
  /\ (truthy (option_of component "asyncData") = false ->
        getComponent env path context s
          = (record_new SSRVueOptions s1, Returns (Fulfilled component))).
Proof.
  intros HV Hi Hn VueOptions SSRVueOptions component.
  rewrite (getComponent_reaches_construction _ _ _ _ _ _ _ HV Hi Hn).
  unfold getComponent_then. fold VueOptions SSRVueOptions component.
  split.
  - intros data fs ->. simpl. eexists. split; [reflexivity|].
    split; [reflexivity|]. intros k. cbn [_data set_data].
    rewrite !member_assign. destruct (own data !! k); [reflexivity|].
    unfold member. now destruct (own _ !! k).
  - now intros ->.
Qed.

Lemma getComponent_merges_async_data_witness :
  exists ready,
    (getComponent
       (Demo.env (Demo.imports (Fulfilled (JObj {[ "a" := JNum 1 ]}))))
       "page" JUndefined (Demo.state_with [])).2
      = Returns (Fulfilled ready)
    /\ member (_data ready) "a" = JNum 1
    /\ member (_data ready) "b" = JNum 2
    /\ member (_data ready) "c" = JUndefined.
Proof.
  destruct (proj1 (getComponent_merges_async_data
              (Demo.env (Demo.imports (Fulfilled (JObj {[ "a" := JNum 1 ]}))))
              "page" JUndefined (Demo.state_with []) _ VueGlobal _
              eq_refl eq_refl eq_refl) (JObj {[ "a" := JNum 1 ]}) ∅ eq_refl)
    as (ready & H & _ & Hk).
  exists ready. split; [now rewrite H|].
  split; [exact (Hk "a")|]. split; [exact (Hk "b") | exact (Hk "c")].
Defined.

(** The specification's example: async [{a: 1}] over static [{b: 2}], and
    an async value that wins on a common key. *)
Example async_data_example :
  (getComponent
     (Demo.env (Demo.imports (Fulfilled (JObj {[ "a" := JNum 1 ]}))))
     "page" JUndefined (Demo.state_with [])).2
  = Returns (Fulfilled
      {| dollar_options :=
           {[ "data" := JObj {[ "b" := JNum 2 ]};
              "asyncData" := JFn (Fulfilled (JObj {[ "a" := JNum 1 ]})) ∅;
              "$context" := JUndefined ]};
         _data := JObj {[ "a" := JNum 1; "b" := JNum 2 ]} |})
  /\ (forall c,
        (getComponent
           (Demo.env (Demo.imports (Fulfilled (JObj {[ "b" := JNum 9 ]}))))
           "page" JUndefined (Demo.state_with [])).2
        = Returns (Fulfilled c) ->
        _data c = JObj {[ "b" := JNum 9 ]}).
Proof. split; [reflexivity|]. now intros c [= <-]. Qed.

(** When the promise of [asyncData()] rejects, [getComponent] leaves its
    promise pending for ever and the rejection goes unhandled. *)
Lemma getComponent_async_data_rejected
    (env : Env) (path : string) (context : val) (s s1 : St) (V : VueClass)
    (object e : val) (fs : gmap string val) :
  getVueClass env s = (s1, Returns (Fulfilled V)) ->
  compiler_import env path = Fulfilled object ->
  nullish object = false ->
  let SSRVueOptions :=
    JObj (assign (assign ∅ (or_else (member object "default") object))
            (JObj {[ "$context" := context ]})) in
  option_of (Vue_new env SSRVueOptions) "asyncData" = JFn (Rejected e) fs ->
  getComponent env path context s
  = (record_unhandled e (record_new SSRVueOptions s1), Returns Forever).
Proof.
  intros HV Hi Hn SSRVueOptions Ha.
  rewrite (getComponent_reaches_construction _ _ _ _ _ _ _ HV Hi Hn).
  unfold getComponent_then. fold SSRVueOptions. now rewrite Ha.
Qed.

(** C6, on the code: a component whose [asyncData] rejects with [boom].
    Neither render call rejects: the promise of each stays pending for
    ever, and [boom] is left as an unhandled rejection. *)
Theorem async_data_rejection_leaves_render_pending :
  let env := Demo.env (Demo.imports (Rejected Demo.boom)) in
  let s := Demo.state_with [] in
  (renderToString env "page" JUndefined JUndefined s).2 = Returns Forever
  /\ (renderToString env "page" JUndefined JUndefined s).2
       <> Returns (Rejected Demo.boom)
  /\ unhandled (renderToString env "page" JUndefined JUndefined s).1 = [Demo.boom]
  /\ (renderToStream env "page" JUndefined JUndefined s).2 = Returns Forever
  /\ unhandled (renderToStream env "page" JUndefined JUndefined s).1 = [Demo.boom].
Proof. repeat split; try reflexivity. discriminate. Qed.

(** ** The options object *)

Lemma step_only_installs (env : Env) (w : World) (ev : Ev) :
  only_installs (st w) (st (step env w ev)).
Proof.
  destruct ev as [|c i|c]; simpl.
  - unfold invoke. pose proof (getVueClass_sync_only_installs (st w)) as H.
    destruct (getVueClass_sync (st w)) as [s' [[V|paths]|e]]; exact H.
  - unfold import_settles.
    destruct (calls w !! c) as [[paths slots| |]|]; try apply only_installs_refl.
    destruct (paths !! i); [|apply only_installs_refl].
    destruct (slots !! i) as [[|]|]; try apply only_installs_refl.
    destruct (compiler_import env s); apply only_installs_refl.
  - unfold run_then.
    destruct (calls w !! c) as [[paths slots| |]|]; try apply only_installs_refl.
    destruct (filled slots) as [mods|]; [|apply only_installs_refl].
    pose proof (getVueClass_then_only_installs mods (st w)) as H.
    destruct (getVueClass_then mods (st w)) as [s' r]; exact H.
Qed.

Lemma run_only_installs (env : Env) (evs : list Ev) (w : World) :
  only_installs (st w) (st (run env evs w)).
Proof.
  revert w. induction evs as [|ev evs IH]; intros w; simpl.
  - apply only_installs_refl.
  - eapply only_installs_trans; [apply step_only_installs | apply IH].
Qed.

Lemma init_effect (env : Env) (s : St) :
  options (init env s) = options s
  /\ heap (init env s)
     = <[preCompile (options s) :=
           arr (heap s) (preCompile (options s))
           ++ (JStr <$> omap is_string (arr (heap s) (plugins (options s))))]>
         (heap s).
Proof.
  unfold init, init_sync, init_settle.
  destruct (compiler_load env _); split; reflexivity.
Qed.

(** C9, as stated, fails for [init]: on a constructed Renderer whose
    plugins hold one path, a further [init] appends that path to the
    preCompile array once more. *)
Lemma init_modifies_preCompile :
  let env := Demo.env (Demo.imports Forever) in
  let renderer := Renderer_new env Demo.caller_heap [] (Some Demo.params) in
  arr (heap renderer) (preCompile (options renderer)) = [JStr "x"; JStr "a"]
  /\ arr (heap (init env renderer)) (preCompile (options renderer))
     = [JStr "x"; JStr "a"; JStr "a"]
  /\ ~ keeps_options renderer (init env renderer).
Proof.
  split; [reflexivity|]. split; [reflexivity|].
  intros [H _]. apply (f_equal (fun h => arr h 3)) in H. discriminate H.
Qed.

(** The default [preCompile] array belongs to the module, so Renderers
    that leave [preCompile] out share it: constructing a second Renderer
    appends to the sequence that the first one holds. *)
Example default_preCompile_is_shared :
  let env := Demo.env (Demo.imports Forever) in
  let first :=
    Renderer_new env Demo.caller_heap [] (Some Demo.params_without_preCompile) in
  let second :=
    Renderer_new env (heap first) [] (Some Demo.params_without_preCompile) in
  preCompile (options first) = preCompile (options second)
  /\ arr (heap first) (preCompile (options first)) = [JStr "a"]
  /\ arr (heap second) (preCompile (options first)) = [JStr "a"; JStr "a"].
Proof. repeat split. Qed.

(** C9, amended: [getVueClass] (alone or in overlapping calls),
    [getComponent], [renderToString], [renderToStream] and the stream-error
    listener leave the options object and every array untouched.  [init]
    keeps the options object and changes one array: it appends the
    string-valued plugins to [preCompile], in place, each time it runs. *)
Theorem options_after_construction
    (env : Env) (path : string) (context state opts e : val) (s : St) :
  keeps_options s (getVueClass env s).1
  /\ (forall evs w, keeps_options (st w) (st (run env evs w)))
  /\ keeps_options s (getComponent env path context s).1
  /\ keeps_options s (renderToString env path state opts s).1
  /\ keeps_options s (renderToStream env path state opts s).1
  /\ keeps_options s (body_error_listener env path state e s)
  /\ options (init env s) = options s
  /\ heap (init env s)
     = <[preCompile (options s) :=
           arr (heap s) (preCompile (options s))
           ++ (JStr <$> omap is_string (arr (heap s) (plugins (options s))))]>
         (heap s)
  /\ (forall l, l <> preCompile (options s) ->
        arr (heap (init env s)) l = arr (heap s) l).
Proof.
  split; [apply only_installs_keeps_options, getVueClass_only_installs|].
  split; [intros; apply only_installs_keeps_options, run_only_installs|].
  pose proof (getComponent_frame env path context s) as (Hc & _ & _).
  split; [exact Hc|]. clear Hc.
  pose proof (getComponent_frame env path (render_context state opts) s)
    as (Hr & _ & _).
  split; [|split]; [| |split; [now split|]].
  - unfold renderToString.
    destruct (getComponent _ _ _ _) as [s1 [[c| |]|x]]; simpl in Hr |- *; try exact Hr.
    destruct (vueRenderer_renderToString env c) as [[x result] rendered].
    destruct (truthy x); [exact Hr|]. now destruct (truthy (isPlain opts)).
  - unfold renderToStream.
    destruct (getComponent _ _ _ _) as [s1 [[c| |]|x]]; simpl in Hr |- *; try exact Hr.
    destruct (vueRenderer_renderToStream env c) as [chunks rendered].
    now destruct (truthy (isPlain opts)).
  - destruct (init_effect env s) as [Ho Hh].
    split; [exact Ho|]. split; [exact Hh|].
    intros l Hl. rewrite Hh. unfold arr. now rewrite lookup_insert_ne.
Qed.

(** ** Installation by [getVueClass] *)

Lemma install_not_nullish (p : val) (s : St) :
  nullish p = false -> install p s = Returns (Vue_use (installable p) s).
Proof.
  intros H. unfold install, installable. rewrite (get_prop_not_nullish _ _ H).
  now destruct (truthy _).
Qed.

Lemma vue_uses_Vue_use_all (xs : list val) (s : St) :
  vue_uses (Vue_use_all xs s) = vue_uses s ++ xs.
Proof.
  revert s. induction xs as [|x xs IH]; intros s; simpl.
  - now rewrite app_nil_r.
  - unfold Vue_use_all in IH. rewrite IH. simpl. now rewrite <- app_assoc.
Qed.

Lemma this_Vue_Vue_use_all (xs : list val) (s : St) :
  this_Vue (Vue_use_all xs s) = this_Vue s.
Proof.
  revert s. induction xs as [|x xs IH]; intros s; simpl; [reflexivity|].
  unfold Vue_use_all in IH. now rewrite IH.
Qed.

Lemma scan_plugins_installs (ps : list val) (need : list string) (s : St) :
  Forall (fun p => nullish p = false) ps ->
  scan_plugins ps need s
  = (Vue_use_all (installable <$> loaded ps) s, Returns (need ++ omap is_string ps)).
Proof.
  intros H. revert need s.
  induction H as [|p ps Hp _ IH]; intros need s; simpl.
  - now rewrite app_nil_r.
  - unfold loaded. destruct (is_string p) as [str|] eqn:E.
    + rewrite filter_cons_False by (rewrite E; discriminate).
      rewrite IH. now rewrite <- app_assoc.
    + rewrite filter_cons_True by exact E.
      rewrite (install_not_nullish _ _ Hp), IH. reflexivity.
Qed.

Lemma install_all_installs (mods : list val) (s : St) :
  Forall (fun m => nullish m = false) mods ->
  install_all mods s = (Vue_use_all (installable <$> mods) s, Returns tt).
Proof.
  intros H. revert s. induction H as [|m mods Hm _ IH]; intros s; simpl.
  - reflexivity.
  - now rewrite (install_not_nullish _ _ Hm), IH.
Qed.

Lemma run_app (env : Env) (evs1 evs2 : list Ev) (w : World) :
  run env (evs1 ++ evs2) w = run env evs2 (run env evs1 w).
Proof. apply fold_left_app. Qed.

Lemma filled_all (mods : list val) : filled (Some <$> mods) = Some mods.
Proof.
  unfold filled. apply mapM_Some_2.
  induction mods as [|m mods IH]; constructor; [reflexivity | exact IH].
Qed.

Lemma agrees_all_settled (mods : list val) (slots : list (option val)) :
  agrees mods slots ->
  (forall j, j < length mods -> settled_at slots j) ->
  slots = Some <$> mods.
Proof.
  intros [Hlen Hag] Hall. apply list_eq. intros i.
  rewrite list_lookup_fmap.
  destruct (decide (i < length mods)) as [Hi|Hi].
  - destruct (Hall i Hi) as [m Hm]. rewrite Hm, (Hag _ _ Hm). reflexivity.
  - rewrite (lookup_ge_None_2 slots i) by lia.
    rewrite (lookup_ge_None_2 mods i) by lia. reflexivity.
Qed.

(** One import settles: its slot is filled with its module, every other
    slot stays as it is. *)
Lemma import_settles_fills (env : Env) (s1 : St) (paths : list string)
    (mods : list val) (slots : list (option val)) (i : nat) :
  Forall2 (fun p m => compiler_import env p = Fulfilled m) paths mods ->
  agrees mods slots ->
  exists slots',
    import_settles env 0 i {| st := s1; calls := [Waiting paths slots] |}
      = {| st := s1; calls := [Waiting paths slots'] |}
    /\ agrees mods slots'
    /\ (forall j, settled_at slots j -> settled_at slots' j)
    /\ (i < length mods -> settled_at slots' i).
Proof.
  intros HF [Hlen Hag]. unfold import_settles; simpl.
  destruct (paths !! i) as [p|] eqn:Ep.
  - destruct (Forall2_lookup_l _ _ _ _ _ HF Ep) as (m & Hm & Himp).
    destruct (slots !! i) as [[m'|]|] eqn:Es.
    + exists slots. repeat split; try assumption; try tauto. now exists m'.
    + rewrite Himp. exists (<[i := Some m]> slots). unfold set_call; simpl.
      assert (i < length slots) as Hi by (eapply lookup_lt_Some, Es).
      repeat split.
      * now rewrite length_insert.
      * intros j m0. destruct (decide (i = j)) as [<-|Hne].
        -- rewrite list_lookup_insert_eq by exact Hi. now intros [= <-].
        -- rewrite list_lookup_insert_ne by exact Hne. apply Hag.
      * intros j [m0 Hj]. destruct (decide (i = j)) as [<-|Hne].
        -- congruence.
        -- exists m0. now rewrite list_lookup_insert_ne.
      * intros _. exists m. now rewrite list_lookup_insert_eq.
    + apply lookup_ge_None_1 in Es. apply lookup_lt_Some in Hm. lia.
  - exists slots. repeat split; try assumption; try tauto.
    intros Hi. apply lookup_ge_None_1 in Ep.
    apply Forall2_length in HF. lia.
Qed.

(** The imports settle in any order [sched]: the slots of those mentioned
    are filled, each with its own module. *)
Lemma imports_settle (env : Env) (s1 : St) (paths : list string)
    (mods : list val) (sched : list nat) (slots : list (option val)) :
  Forall2 (fun p m => compiler_import env p = Fulfilled m) paths mods ->
  agrees mods slots ->
  exists slots',
    run env (ImportSettles 0 <$> sched)
      {| st := s1; calls := [Waiting paths slots] |}
      = {| st := s1; calls := [Waiting paths slots'] |}
    /\ agrees mods slots'
    /\ (forall j, settled_at slots j -> settled_at slots' j)
    /\ (forall j, j < length mods -> j ∈ sched -> settled_at slots' j).
Proof.
  intros HF. revert slots.
  induction sched as [|i sched IH]; intros slots Hag.
  - exists slots. repeat split; try apply Hag; try tauto.
    now intros j _ ?%elem_of_nil.
  - destruct (import_settles_fills env s1 paths mods slots i HF Hag)
      as (slots1 & Hstep & Hag1 & Hkeep & Hi).
    destruct (IH slots1 Hag1) as (slots2 & Hrun & Hag2 & Hkeep2 & Hall).
    exists slots2. split; [|split; [exact Hag2|split]].
    + rewrite fmap_cons. unfold run in *. simpl. rewrite Hstep. exact Hrun.
    + intros j Hj. now apply Hkeep2, Hkeep.
    + intros j Hj [->|Hin]%elem_of_cons; [|now apply Hall].
      now apply Hkeep2, Hi.
Qed.

(** The synchronous part of a first call on a renderer with path plugins. *)
Lemma invoke_first_call (s : St) :
  let ps := arr (heap s) (plugins (options s)) in
  this_Vue s = None ->
  Forall (fun p => nullish p = false) ps ->
  omap is_string ps <> [] ->
  invoke (fresh s)
  = {| st := Vue_use_all (installable <$> loaded ps) s;
       calls := [Waiting (omap is_string ps)
                   (replicate (length (omap is_string ps)) None)] |}.
Proof.
  intros ps Hnone Hps Hpaths. unfold invoke, getVueClass_sync; simpl.
  rewrite Hnone. fold ps. rewrite (scan_plugins_installs _ _ _ Hps). simpl.
  destruct (omap is_string ps); [congruence | reflexivity].
Qed.

(** C7, as stated, fails: with the paths [a], [b] configured and the import
    of [b] settling first, the modules are still installed as configured,
    [a]'s before [b]'s, not in the order in which the imports settled. *)
Lemma imports_settling_out_of_order :
  let env := Demo.env (Demo.imports Forever) in
  let s := Demo.state_with [JStr "a"; JStr "b"] in
  let mods := [Demo.plugin "A"; Demo.wrapped "B"] in
  completion_order [1; 0] mods [] = [Demo.wrapped "B"; Demo.plugin "A"]
  /\ vue_uses (st (run env (single_call [1; 0]) (fresh s)))
     = [Demo.plugin "A"; Demo.plugin "B"]
  /\ vue_uses (st (run env (single_call [1; 0]) (fresh s)))
     <> (installable <$> completion_order [1; 0] mods []).
Proof.
  split; [reflexivity|]. split; [reflexivity|].
  intros H. apply (f_equal (fun l => member (default JUndefined (l !! 0)) "name")) in H.
  discriminate H.
Qed.

(** C7, amended: a first call installs the loaded plugin values at once,
    in configured order; when every import has been fulfilled, in whatever
    order, its continuation installs the imported modules in the order in
    which their paths are configured.  So all loaded values come before all
    path plugins, and nothing depends on the order of settling. *)
Theorem path_plugins_install_in_configured_order
    (env : Env) (s : St) (mods : list val) (sched : list nat) :
  let ps := arr (heap s) (plugins (options s)) in
  this_Vue s = None ->
  Forall (fun p => nullish p = false) ps ->
  omap is_string ps <> [] ->
  Forall2 (fun p m => compiler_import env p = Fulfilled m /\ nullish m = false)
    (omap is_string ps) mods ->
  (forall i, i < length mods -> i ∈ sched) ->
  vue_uses (st (run env [Invoke] (fresh s)))
    = vue_uses s ++ (installable <$> loaded ps)
  /\ this_Vue (st (run env [Invoke] (fresh s))) = None
  /\ vue_uses (st (run env (single_call sched) (fresh s)))
     = vue_uses s ++ (installable <$> loaded ps) ++ (installable <$> mods)
  /\ this_Vue (st (run env (single_call sched) (fresh s))) = Some VueGlobal
  /\ calls (run env (single_call sched) (fresh s)) = [Finished (Fulfilled VueGlobal)].
Proof.
  intros ps Hnone Hps Hpaths HF Hsched.
  pose proof (invoke_first_call s Hnone Hps Hpaths) as Hinv. fold ps in Hinv.
  assert (Forall2 (fun p m => compiler_import env p = Fulfilled m)
            (omap is_string ps) mods) as HF1
    by (eapply Forall2_impl; [exact HF | now intros ? ? []]).
  assert (Forall (fun m => nullish m = false) mods) as HF2
    by (eapply Forall2_Forall_r; [exact HF | apply Forall_true; now intros ? ? []]).
  split; [|split].
  - unfold run; simpl. rewrite Hinv. apply vue_uses_Vue_use_all.
  - unfold run; simpl. rewrite Hinv. simpl. now rewrite this_Vue_Vue_use_all.
  - unfold single_call.
    change (Invoke :: (ImportSettles 0 <$> sched) ++ [RunThen 0])
      with ([Invoke] ++ (ImportSettles 0 <$> sched) ++ [RunThen 0]).
    rewrite !run_app.
    change (run env [Invoke] (fresh s)) with (invoke (fresh s)). rewrite Hinv.
    destruct (imports_settle env (Vue_use_all (installable <$> loaded ps) s)
                (omap is_string ps) mods sched
                (replicate (length (omap is_string ps)) None) HF1)
      as (slots & Hrun & Hag & _ & Hall).
    { split.
      - rewrite length_replicate. eapply Forall2_length, HF1.
      - intros i m [? _]%lookup_replicate. discriminate. }
    rewrite Hrun.
    rewrite (agrees_all_settled mods slots Hag) by (intros j Hj; auto).
    unfold run; simpl. unfold run_then; simpl. rewrite filled_all.
    unfold getVueClass_then. rewrite (install_all_installs _ _ HF2). simpl.
    rewrite !vue_uses_Vue_use_all. now rewrite <- app_assoc.
Qed.

Lemma path_plugins_install_in_configured_order_witness :
  vue_uses (st (run (Demo.env (Demo.imports Forever)) (single_call [1; 0])
                  (fresh (Demo.state_with [JStr "a"; Demo.plugin "P"; JStr "b"]))))
  = [Demo.plugin "P"; Demo.plugin "A"; Demo.plugin "B"].
Proof.
  refine (proj1 (proj2 (proj2
    (path_plugins_install_in_configured_order
       (Demo.env (Demo.imports Forever))
       (Demo.state_with [JStr "a"; Demo.plugin "P"; JStr "b"])
       [Demo.plugin "A"; Demo.wrapped "B"] [1; 0] eq_refl _ _ _ _)))).
  - repeat constructor.
  - discriminate.
  - repeat constructor.
  - intros i Hi. simpl in Hi.
    destruct i as [|[|i]]; [right; left | left | lia].
Defined.

(** ** The memoized class *)

Lemma install_this_Vue (p : val) (s s' : St) :
  install p s = Returns s' -> this_Vue s' = this_Vue s.
Proof.
  unfold install. destruct (get_prop p "default") as [d|e]; [|discriminate].
  destruct (truthy _); now intros [= <-].
Qed.

Lemma install_all_this_Vue (mods : list val) (s : St) :
  this_Vue (install_all mods s).1 = this_Vue s.
Proof.
  revert s. induction mods as [|p mods IH]; intros s; simpl; [reflexivity|].
  destruct (install p s) as [s'|e] eqn:E; simpl; [|reflexivity].
  rewrite IH. eapply install_this_Vue, E.
Qed.

Lemma getVueClass_sync_memoized (s : St) (V : VueClass) :
  this_Vue s = Some V -> getVueClass_sync s = (s, Returns (Resolved V)).
Proof. unfold getVueClass_sync. now intros ->. Qed.

(** [this.Vue], once set, is never unset. *)
Lemma step_keeps_memo (env : Env) (w : World) (ev : Ev) (V : VueClass) :
  this_Vue (st w) = Some V -> this_Vue (st (step env w ev)) = Some V.
Proof.
  intros H. destruct ev as [|c i|c]; simpl.
  - unfold invoke. now rewrite (getVueClass_sync_memoized _ _ H).
  - unfold import_settles.
    destruct (calls w !! c) as [[paths slots| |]|]; try exact H.
    destruct (paths !! i); [|exact H].
    destruct (slots !! i) as [[|]|]; try exact H.
    destruct (compiler_import env s); exact H.
  - unfold run_then.
    destruct (calls w !! c) as [[paths slots| |]|]; try exact H.
    destruct (filled slots) as [mods|]; [|exact H].
    unfold getVueClass_then.
    pose proof (install_all_this_Vue mods (st w)) as H'.
    destruct (install_all mods (st w)) as [s' [[]|e]]; simpl in *.
    + now destruct V.
    + congruence.
Qed.

(** With the class memoized and no call in flight, an event changes
    nothing but the list of calls, to which a call resolved with the class
    may be added. *)
Lemma step_when_memoized (env : Env) (w : World) (ev : Ev) (V : VueClass) :
  this_Vue (st w) = Some V ->
  Forall (fun c => in_flight c = false) (calls w) ->
  st (step env w ev) = st w
  /\ (calls (step env w ev) = calls w
      \/ calls (step env w ev) = calls w ++ [Finished (Fulfilled V)]).
Proof.
  intros H Hc. destruct ev as [|c i|c]; simpl.
  - unfold invoke. rewrite (getVueClass_sync_memoized _ _ H). simpl. auto.
  - unfold import_settles.
    destruct (calls w !! c) as [[paths slots| |]|] eqn:E; auto.
    now apply (Forall_lookup_1 _ _ _ _ Hc) in E.
  - unfold run_then.
    destruct (calls w !! c) as [[paths slots| |]|] eqn:E; auto.
    now apply (Forall_lookup_1 _ _ _ _ Hc) in E.
Qed.

(** C1, as stated, fails: two calls made before the first resolution do
    not converge on one installation.  Each runs its own pass, so the loaded
    plugin and the imported one are both handed to [Vue.use] twice. *)
Lemma overlapping_calls_install_twice :
  let env := Demo.env (Demo.imports Forever) in
  let s := Demo.state_with [Demo.plugin "P"; JStr "a"] in
  let w := run env [Invoke; Invoke] (fresh s) in
  calls w = [Waiting ["a"] [None]; Waiting ["a"] [None]]
  /\ this_Vue (st w) = None
  /\ vue_uses (st (run env [ImportSettles 0 0; ImportSettles 1 0;
                            RunThen 0; RunThen 1] w))
     = [Demo.plugin "P"; Demo.plugin "P"; Demo.plugin "A"; Demo.plugin "A"].
Proof. repeat split. Qed.

(** C1, amended: once a resolution has set [this.Vue], a call of
    [getVueClass] returns that class at once and installs nothing, and
    [this.Vue] is never reset, whatever happens next; when, moreover, no
    earlier call is still in flight, nothing at all is installed any more:
    the renderer state stays as it is and every further call resolves with
    the same class. *)
Theorem getVueClass_memoizes_the_class
    (env : Env) (w : World) (evs : list Ev) (V : VueClass) :
  this_Vue (st w) = Some V ->
  getVueClass env (st w) = (st w, Returns (Fulfilled V))
  /\ this_Vue (st (run env evs w)) = Some V
  /\ (Forall (fun c => in_flight c = false) (calls w) ->
        st (run env evs w) = st w
        /\ exists k, calls (run env evs w)
                     = calls w ++ replicate k (Finished (Fulfilled V))).
Proof.
  intros H. split; [|split].
  - unfold getVueClass. now rewrite (getVueClass_sync_memoized _ _ H).
  - revert w H. induction evs as [|ev evs IH]; intros w H; [exact H|].
    apply (IH (step env w ev)), step_keeps_memo, H.
  - revert w H. induction evs as [|ev evs IH]; intros w H Hc.
    + split; [reflexivity|]. exists 0. simpl. now rewrite app_nil_r.
    + destruct (step_when_memoized env w ev V H Hc) as [Hst Hcalls].
      destruct (IH (step env w ev)) as [Hst' [k Hk]].
      * now rewrite Hst.
      * destruct Hcalls as [-> | ->]; [exact Hc|].
        apply Forall_app; split; [exact Hc | now repeat constructor].
      * change (run env (ev :: evs) w) with (run env evs (step env w ev)).
        split; [congruence|]. rewrite Hk.
        destruct Hcalls as [-> | ->]; [now exists k|].
        exists (S k). rewrite <- app_assoc. reflexivity.
Qed.

Lemma getVueClass_memoizes_the_class_witness :
  let env := Demo.env (Demo.imports Forever) in
  let w := run env (single_call [0])
             (fresh (Demo.state_with [Demo.plugin "P"; JStr "a"])) in
  vue_uses (st w) = [Demo.plugin "P"; Demo.plugin "A"]
  /\ st (run env [Invoke; RunThen 0; Invoke; ImportSettles 1 0] w) = st w.
Proof.
  intros env w. split; [reflexivity|].
  refine (proj1 (proj2 (proj2
    (getVueClass_memoizes_the_class env w
       [Invoke; RunThen 0; Invoke; ImportSettles 1 0] VueGlobal eq_refl)) _)).
  repeat constructor.
Defined.

(** * Further properties of the Renderer *)

(** ** Construction and precompilation *)

Lemma arr_insert_eq (h : gmap loc (list val)) (l : loc) (x : list val) :
  arr (<[l := x]> h) l = x.
Proof. unfold arr. now rewrite lookup_insert_eq. Qed.

Lemma arr_insert_ne (h : gmap loc (list val)) (l l' : loc) (x : list val) :
  l <> l' -> arr (<[l := x]> h) l' = arr h l'.
Proof. intros H. unfold arr. now rewrite lookup_insert_ne. Qed.

Lemma omap_is_string_JStr (l : list string) : omap is_string (JStr <$> l) = l.
Proof. induction l as [|x l IH]; [reflexivity|]. simpl. f_equal. exact IH. Qed.

Lemma path_is_configured (ps : list val) (str : string) :
  JStr str ∈ ps <-> str ∈ omap is_string ps.
Proof.
  rewrite list_elem_of_omap. split.
  - intros H. now exists (JStr str).
  - intros (x & Hx & Hs). destruct x; try discriminate Hs.
    injection Hs as ->. exact Hx.
Qed.

(** X1: [init] hands [compiler.load] the preCompile array as it is after
    the string-valued plugins were appended, and reports the outcome as one
    event: [ready] when the load is fulfilled, [error] carrying a BaseError
    built from the failure when it is rejected, nothing while it is pending.
    A failed precompilation leaves [this.Vue], the installed plugins and the
    constructed components alone. *)
Theorem init_reports_precompilation (env : Env) (s : St) :
  let handed :=
    arr (heap s) (preCompile (options s)) ++ (JStr <$> configured_paths s) in
  emitted (init env s) = emitted s ++ load_events env (compiler_load env handed)
  /\ this_Vue (init env s) = this_Vue s
  /\ vue_uses (init env s) = vue_uses s
  /\ constructed (init env s) = constructed s
  /\ unhandled (init env s) = unhandled s.
Proof.
  unfold init, init_sync, configured_paths. cbn zeta. cbv beta iota.
  rewrite arr_insert_eq.
  destruct (compiler_load env _) as [[]|e|]; simpl; repeat split.
  now rewrite app_nil_r.
Qed.

(** X2: after [init], and so after construction, every string-valued entry
    of the plugin array is also in the preCompile array, whether or not
    the two arrays are one and the same. *)
Theorem preCompile_includes_path_plugins (env : Env) (s : St) (str : string) :
  JStr str ∈ arr (heap (init env s)) (plugins (options (init env s))) ->
  JStr str ∈ arr (heap (init env s)) (preCompile (options (init env s))).
Proof.
  destruct (init_effect env s) as [-> ->].
  rewrite arr_insert_eq.
  destruct (decide (preCompile (options s) = plugins (options s))) as [E|E].
  - rewrite E, arr_insert_eq. intros H. exact H.
  - rewrite (arr_insert_ne _ _ _ _ E). intros H.
    apply elem_of_app. right. apply list_elem_of_fmap_2.
    now apply path_is_configured.
Qed.

Lemma preCompile_includes_path_plugins_witness :
  JStr "a" ∈ arr (heap (Renderer_new (Demo.env (Demo.imports Forever))
                          Demo.caller_heap [] (Some Demo.params))) 3.
Proof.
  apply (preCompile_includes_path_plugins (Demo.env (Demo.imports Forever))
           {| heap := Demo.caller_heap; options := merge_options (Some Demo.params);
              this_Vue := None; vue_uses := []; constructed := []; emitted := [];
              unhandled := [] |} "a").
  left.
Defined.

Lemma Renderer_new_effect (env : Env) (h : gmap loc (list val)) (uses : list val)
    (o : option RendererOptionParams) :
  options (Renderer_new env h uses o) = merge_options o
  /\ heap (Renderer_new env h uses o)
     = <[preCompile (merge_options o) :=
           arr h (preCompile (merge_options o))
           ++ (JStr <$> omap is_string (arr h (plugins (merge_options o))))]> h.
Proof. unfold Renderer_new. apply init_effect. Qed.

(** X3: the default [preCompile] array is one array of the module.  Two
    Renderers constructed without a [preCompile] of their own hold the same
    array, and constructing the second appends its path plugins to the
    sequence that the first one holds. *)
Theorem default_preCompile_is_shared_between_renderers
    (env1 env2 : Env) (h : gmap loc (list val)) (uses1 uses2 : list val)
    (o1 o2 : option RendererOptionParams) :
  omits_preCompile o1 -> omits_preCompile o2 ->
  let first := Renderer_new env1 h uses1 o1 in
  let second := Renderer_new env2 (heap first) uses2 o2 in
  preCompile (options second) = preCompile (options first)
  /\ arr (heap second) (preCompile (options first))
     = arr (heap first) (preCompile (options first))
       ++ (JStr <$> omap is_string (arr (heap first) (plugins (options second)))).
Proof.
  intros H1 H2 first second.
  destruct (Renderer_new_effect env2 (heap first) uses2 o2) as [Ho Hh].
  fold second in Ho, Hh.
  assert (preCompile (merge_options o1) = default_preCompile) as E1
    by (destruct o1 as [p|]; [simpl in *; now rewrite H1 | reflexivity]).
  assert (preCompile (merge_options o2) = default_preCompile) as E2
    by (destruct o2 as [p|]; [simpl in *; now rewrite H2 | reflexivity]).
  assert (options first = merge_options o1) as Hf
    by apply (Renderer_new_effect env1 h uses1 o1).
  rewrite Ho, Hf, E1, E2. split; [reflexivity|].
  rewrite Hh, E2, arr_insert_eq. reflexivity.
Qed.

Lemma default_preCompile_is_shared_between_renderers_witness :
  arr (heap (Renderer_new (Demo.env (Demo.imports Forever))
               (heap (Renderer_new (Demo.env (Demo.imports Forever))
                        Demo.caller_heap [] (Some Demo.params_without_preCompile)))
               [] None))
      default_preCompile
  = [JStr "a"].
Proof.
  refine (proj2 (default_preCompile_is_shared_between_renderers
                   (Demo.env (Demo.imports Forever))
                   (Demo.env (Demo.imports Forever)) Demo.caller_heap [] []
                   (Some Demo.params_without_preCompile) None eq_refl I)).
Defined.

(** X4: when the caller passes one array as both [plugins] and
    [preCompile], [init] appends the path plugins to the plugin array
    itself: every configured path is then configured twice. *)
Theorem init_doubles_paths_of_an_aliased_array (env : Env) (s : St) :
  plugins (options s) = preCompile (options s) ->
  arr (heap (init env s)) (plugins (options (init env s)))
    = arr (heap s) (plugins (options s)) ++ (JStr <$> configured_paths s)
  /\ configured_paths (init env s) = configured_paths s ++ configured_paths s.
Proof.
  intros E. unfold configured_paths.
  destruct (init_effect env s) as [-> ->].
  rewrite <- E, arr_insert_eq. split; [reflexivity|].
  now rewrite omap_app, omap_is_string_JStr.
Qed.

Lemma init_doubles_paths_of_an_aliased_array_witness :
  configured_paths (init (Demo.env (Demo.imports Forever)) Cases.aliased)
  = ["a"; "a"].
Proof.
  refine (proj2 (init_doubles_paths_of_an_aliased_array
                   (Demo.env (Demo.imports Forever)) Cases.aliased eq_refl)).
Defined.

(** ** More on [getVueClass] *)

Lemma loaded_without_paths (ps : list val) :
  omap is_string ps = [] -> loaded ps = ps.
Proof.
  unfold loaded. induction ps as [|p ps IH]; [reflexivity|]. simpl.
  destruct (is_string p) as [str|] eqn:E; [discriminate|]. intros H.
  rewrite filter_cons_True by exact E. now rewrite IH.
Qed.

Lemma Vue_use_all_arrays (xs : list val) (s : St) :
  heap (Vue_use_all xs s) = heap s /\ options (Vue_use_all xs s) = options s.
Proof.
  revert s. induction xs as [|x xs IH]; intros s; [now split|].
  destruct (IH (Vue_use x s)) as [H1 H2]. split; [exact H1 | exact H2].
Qed.

Lemma getVueClass_sync_first (s : St) :
  this_Vue s = None ->
  Forall (fun p => nullish p = false) (arr (heap s) (plugins (options s))) ->
  configured_paths s <> [] ->
  getVueClass_sync s
  = (Vue_use_all (configured_installables s) s, Returns (Awaiting (configured_paths s))).
Proof.
  intros Hnone Hps Hpaths. unfold getVueClass_sync. rewrite Hnone.
  rewrite (scan_plugins_installs _ _ _ Hps). simpl.
  unfold configured_paths in *.
  destruct (omap is_string _); [congruence | reflexivity].
Qed.

(** X5: with no string-valued plugin configured (an empty plugin list
    included) a first call of [getVueClass] installs the loaded values in
    configured order, memoizes the class and resolves within the call; the
    compiler is not involved, whatever it would answer. *)
Theorem getVueClass_without_path_plugins (env : Env) (s : St) :
  this_Vue s = None ->
  Forall (fun p => nullish p = false) (arr (heap s) (plugins (options s))) ->
  configured_paths s = [] ->
  getVueClass env s
  = (set_Vue VueGlobal
       (Vue_use_all (installable <$> arr (heap s) (plugins (options s))) s),
     Returns (Fulfilled VueGlobal))
  /\ vue_uses (getVueClass env s).1
     = vue_uses s ++ (installable <$> arr (heap s) (plugins (options s))).
Proof.
  intros Hnone Hps Hpaths.
  assert (getVueClass env s
          = (set_Vue VueGlobal
               (Vue_use_all (installable <$> arr (heap s) (plugins (options s))) s),
             Returns (Fulfilled VueGlobal))) as E.
  { unfold getVueClass, getVueClass_sync. rewrite Hnone.
    rewrite (scan_plugins_installs _ _ _ Hps). simpl.
    unfold configured_paths in Hpaths. rewrite Hpaths. simpl.
    now rewrite (loaded_without_paths _ Hpaths). }
  split; [exact E|]. rewrite E. simpl. apply vue_uses_Vue_use_all.
Qed.

Lemma getVueClass_without_path_plugins_witness :
  vue_uses (getVueClass (Demo.env Cases.broken_imports)
              (Demo.state_with [Demo.wrapped "B"; Demo.plugin "P"])).1
  = [Demo.plugin "B"; Demo.plugin "P"].
Proof.
  refine (proj2 (getVueClass_without_path_plugins (Demo.env Cases.broken_imports)
                   (Demo.state_with [Demo.wrapped "B"; Demo.plugin "P"])
                   eq_refl _ eq_refl)).
  repeat constructor.
Defined.

(** X6: when the import of a path plugin is rejected, the promise of
    [getVueClass] is rejected with that failure and [this.Vue] stays unset,
    although the loaded values have been installed by then.  The failure is
    not memoized: the next call starts over and hands the loaded values to
    [Vue.use] once more. *)
Theorem getVueClass_failed_import_is_not_memoized (env : Env) (s : St) (e : val) :
  this_Vue s = None ->
  Forall (fun p => nullish p = false) (arr (heap s) (plugins (options s))) ->
  promise_all (compiler_import env <$> configured_paths s) = Rejected e ->
  let s1 := Vue_use_all (configured_installables s) s in
  getVueClass env s = (s1, Returns (Rejected e))
  /\ this_Vue s1 = None
  /\ getVueClass env s1
     = (Vue_use_all (configured_installables s) s1, Returns (Rejected e))
  /\ vue_uses (getVueClass env s1).1
     = vue_uses s ++ configured_installables s ++ configured_installables s.
Proof.
  intros Hnone Hps Hrej s1.
  assert (configured_paths s <> []) as Hpaths
    by (intros E; rewrite E in Hrej; discriminate Hrej).
  assert (getVueClass env s = (s1, Returns (Rejected e))) as E1.
  { unfold getVueClass. rewrite (getVueClass_sync_first s Hnone Hps Hpaths).
    now rewrite Hrej. }
  destruct (Vue_use_all_arrays (configured_installables s) s) as [Hh Ho].
  fold s1 in Hh, Ho.
  assert (this_Vue s1 = None) as Hnone1
    by (unfold s1; now rewrite this_Vue_Vue_use_all).
  assert (configured_paths s1 = configured_paths s) as Hp1
    by (unfold configured_paths; now rewrite Hh, Ho).
  assert (configured_installables s1 = configured_installables s) as Hi1
    by (unfold configured_installables; now rewrite Hh, Ho).
  assert (getVueClass env s1
          = (Vue_use_all (configured_installables s) s1, Returns (Rejected e))) as E2.
  { unfold getVueClass. rewrite (getVueClass_sync_first s1 Hnone1).
    - now rewrite Hp1, Hi1, Hrej.
    - now rewrite Hh, Ho.
    - now rewrite Hp1. }
  split; [exact E1|]. split; [exact Hnone1|]. split; [exact E2|].
  rewrite E2. simpl. unfold s1. rewrite !vue_uses_Vue_use_all.
  now rewrite <- app_assoc.
Qed.

Lemma getVueClass_failed_import_is_not_memoized_witness :
  getVueClass (Demo.env Cases.broken_imports)
    (Demo.state_with [Demo.plugin "P"; JStr "a"])
  = (Vue_use_all [Demo.plugin "P"] (Demo.state_with [Demo.plugin "P"; JStr "a"]),
     Returns (Rejected Demo.boom)).
Proof.
  refine (proj1 (getVueClass_failed_import_is_not_memoized
                   (Demo.env Cases.broken_imports)
                   (Demo.state_with [Demo.plugin "P"; JStr "a"]) Demo.boom
                   eq_refl _ eq_refl)).
  repeat constructor.
Defined.

Lemma scan_plugins_throws (pre post : list val) (p : val) (need : list string)
    (s : St) :
  Forall (fun q => nullish q = false) pre ->
  nullish p = true ->
  scan_plugins (pre ++ p :: post) need s
  = (Vue_use_all (installable <$> loaded pre) s, Throws no_default).
Proof.
  intros Hpre Hp. revert need s.
  induction Hpre as [|q pre Hq _ IH]; intros need s; simpl.
  - destruct p; try discriminate Hp; reflexivity.
  - unfold loaded. destruct (is_string q) as [str|] eqn:E.
    + rewrite filter_cons_False by (rewrite E; discriminate). apply IH.
    + rewrite filter_cons_True by exact E.
      rewrite (install_not_nullish _ _ Hq). apply IH.
Qed.

(** X7: a [null] or [undefined] entry in the plugin list makes
    [getVueClass] throw a TypeError within the call, after the loaded values
    in front of it have been installed and with [this.Vue] left unset.  The
    exception leaves [getComponent] and both render calls as an exception
    too: no promise is returned, so nothing is there to reject. *)
Theorem nullish_plugin_throws
    (env : Env) (s : St) (pre post : list val) (p : val)
    (path : string) (state opts context : val) :
  this_Vue s = None ->
  arr (heap s) (plugins (options s)) = pre ++ p :: post ->
  Forall (fun q => nullish q = false) pre ->
  nullish p = true ->
  let s1 := Vue_use_all (installable <$> loaded pre) s in
  this_Vue s1 = None
  /\ getVueClass env s = (s1, Throws no_default)
  /\ getComponent env path context s = (s1, Throws no_default)
  /\ renderToString env path state opts s = (s1, Throws no_default)
  /\ renderToStream env path state opts s = (s1, Throws no_default).
Proof.
  intros Hnone Hps Hpre Hp s1.
  assert (getVueClass env s = (s1, Throws no_default)) as E.
  { unfold getVueClass, getVueClass_sync. rewrite Hnone, Hps.
    now rewrite (scan_plugins_throws _ _ _ _ _ Hpre Hp). }
  assert (forall c, getComponent env path c s = (s1, Throws no_default)) as Ec
    by (intros c; unfold getComponent; now rewrite E).
  split; [unfold s1; now rewrite this_Vue_Vue_use_all|].
  split; [exact E|]. split; [apply Ec|].
  split; [unfold renderToString | unfold renderToStream]; now rewrite Ec.
Qed.

Lemma nullish_plugin_throws_witness :
  renderToString (Demo.env (Demo.imports Forever)) "static" JUndefined JUndefined
    (Demo.state_with [Demo.plugin "P"; JStr "a"; JNull; Demo.plugin "Q"])
  = (Vue_use_all [Demo.plugin "P"]
       (Demo.state_with [Demo.plugin "P"; JStr "a"; JNull; Demo.plugin "Q"]),
     Throws no_default).
Proof.
  refine (proj1 (proj2 (proj2 (proj2
    (nullish_plugin_throws (Demo.env (Demo.imports Forever))
       (Demo.state_with [Demo.plugin "P"; JStr "a"; JNull; Demo.plugin "Q"])
       [Demo.plugin "P"; JStr "a"] [Demo.plugin "Q"] JNull
       "static" JUndefined JUndefined JUndefined eq_refl eq_refl _ eq_refl))))).
  repeat constructor.
Defined.

Lemma invoke_in_flight (w : World) :
  this_Vue (st w) = None ->
  Forall (fun p => nullish p = false)
    (arr (heap (st w)) (plugins (options (st w)))) ->
  configured_paths (st w) <> [] ->
  invoke w
  = {| st := Vue_use_all (configured_installables (st w)) (st w);
       calls := calls w
                ++ [Waiting (configured_paths (st w))
                      (replicate (length (configured_paths (st w))) None)] |}.
Proof.
  intros Hnone Hps Hpaths. unfold invoke.
  now rewrite (getVueClass_sync_first _ Hnone Hps Hpaths).
Qed.

Lemma overlapping_invokes (env : Env) (s : St) (n : nat) (w : World) :
  Forall (fun p => nullish p = false) (arr (heap s) (plugins (options s))) ->
  configured_paths s <> [] ->
  heap (st w) = heap s -> options (st w) = options s -> this_Vue (st w) = None ->
  let w' := run env (replicate n Invoke) w in
  vue_uses (st w')
    = vue_uses (st w) ++ mjoin (replicate n (configured_installables s))
  /\ this_Vue (st w') = None
  /\ calls w'
     = calls w
       ++ replicate n (Waiting (configured_paths s)
                         (replicate (length (configured_paths s)) None)).
Proof.
  intros Hps Hpaths. revert w.
  induction n as [|n IH]; intros w Hh Ho Hnone.
  - simpl. now rewrite !app_nil_r.
  - assert (configured_paths (st w) = configured_paths s) as Hp
      by (unfold configured_paths; now rewrite Hh, Ho).
    assert (configured_installables (st w) = configured_installables s) as Hi
      by (unfold configured_installables; now rewrite Hh, Ho).
    assert (invoke w
            = {| st := Vue_use_all (configured_installables s) (st w);
                 calls := calls w
                          ++ [Waiting (configured_paths s)
                                (replicate (length (configured_paths s)) None)] |})
      as Hinv.
    { rewrite invoke_in_flight; [now rewrite Hp, Hi | exact Hnone | |].
      - now rewrite Hh, Ho.
      - now rewrite Hp. }
    destruct (Vue_use_all_arrays (configured_installables s) (st w)) as [Hh' Ho'].
    change (run env (replicate (S n) Invoke) w)
      with (run env (replicate n Invoke) (invoke w)).
    rewrite Hinv.
    destruct (IH {| st := Vue_use_all (configured_installables s) (st w);
                    calls := calls w
                             ++ [Waiting (configured_paths s)
                                   (replicate (length (configured_paths s)) None)] |})
      as (H1 & H2 & H3); simpl.
    + congruence.
    + congruence.
    + now rewrite this_Vue_Vue_use_all.
    + simpl in H1, H3. rewrite H1, H3, vue_uses_Vue_use_all.
      split; [now rewrite <- app_assoc|]. split; [exact H2|].
      now rewrite <- app_assoc.
Qed.

(** X8: while the first resolution is outstanding, every call of
    [getVueClass] runs the installation of the loaded values again and
    starts its own imports: after [n] such calls each loaded plugin has been
    handed to [Vue.use] [n] times, [n] calls are waiting, and [this.Vue] is
    still unset. *)
Theorem overlapping_calls_each_install (env : Env) (s : St) (n : nat) :
  this_Vue s = None ->
  Forall (fun p => nullish p = false) (arr (heap s) (plugins (options s))) ->
  configured_paths s <> [] ->
  let w := run env (replicate n Invoke) (fresh s) in
  vue_uses (st w) = vue_uses s ++ mjoin (replicate n (configured_installables s))
  /\ this_Vue (st w) = None
  /\ calls w = replicate n (Waiting (configured_paths s)
                              (replicate (length (configured_paths s)) None)).
Proof.
  intros Hnone Hps Hpaths.
  exact (overlapping_invokes env s n (fresh s) Hps Hpaths eq_refl eq_refl Hnone).
Qed.

Lemma overlapping_calls_each_install_witness :
  vue_uses (st (run (Demo.env (Demo.imports Forever)) (replicate 3 Invoke)
                  (fresh (Demo.state_with [Demo.plugin "P"; JStr "a"]))))
  = [Demo.plugin "P"; Demo.plugin "P"; Demo.plugin "P"].
Proof.
  refine (proj1 (overlapping_calls_each_install (Demo.env (Demo.imports Forever))
                   (Demo.state_with [Demo.plugin "P"; JStr "a"]) 3
                   eq_refl _ _)).
  - repeat constructor.
  - discriminate.
Defined.

(** ** More on [getComponent] and the render calls *)

(** The renderer state after a render call is the one [getComponent]
    leaves: rendering itself changes nothing in it. *)
Lemma renderToString_state (env : Env) (path : string) (state opts : val) (s : St) :
  (renderToString env path state opts s).1
  = (getComponent env path (render_context state opts) s).1.
Proof.
  unfold renderToString.
  destruct (getComponent _ _ _ _) as [s1 [[c| |]|x]]; simpl; try reflexivity.
  destruct (vueRenderer_renderToString env c) as [[x result] rendered].
  destruct (truthy x); [reflexivity|]. now destruct (truthy (isPlain opts)).
Qed.

Lemma renderToStream_state (env : Env) (path : string) (state opts : val) (s : St) :
  (renderToStream env path state opts s).1
  = (getComponent env path (render_context state opts) s).1.
Proof.
  unfold renderToStream.
  destruct (getComponent _ _ _ _) as [s1 [[c| |]|x]]; simpl; try reflexivity.
  destruct (vueRenderer_renderToStream env c) as [chunks rendered].
  now destruct (truthy (isPlain opts)).
Qed.

Lemma render_rejects_before_construction
    (env : Env) (path : string) (state opts context : val) (s s1 : St)
    (pV : Settled val VueClass) (e : val) :
  getVueClass env s = (s1, Returns pV) ->
  (forall e', pV <> Rejected e') ->
  then_ (compiler_import env path) unwrap_default = Rejected e ->
  getComponent env path context s = (s1, Returns (Rejected e))
  /\ renderToString env path state opts s = (s1, Returns (Rejected e))
  /\ renderToStream env path state opts s = (s1, Returns (Rejected e))
  /\ constructed s1 = constructed s.
Proof.
  intros HV HpV Hi.
  assert (forall c, getComponent env path c s = (s1, Returns (Rejected e))) as Ec.
  { intros c. unfold getComponent. rewrite HV, Hi.
    destruct pV as [V|e'|]; simpl; [reflexivity | | reflexivity].
    now destruct (HpV e'). }
  split; [apply Ec|].
  split; [unfold renderToString; now rewrite Ec|].
  split; [unfold renderToStream; now rewrite Ec|].
  pose proof (getVueClass_only_installs env s) as H. rewrite HV in H.
  apply H.
Qed.

(** X9: when the compiler fails to import the component, both render calls
    are rejected with the compiler's failure itself, not wrapped and not
    annotated; no component is constructed.  (A failure of [getVueClass]
    would come first; it is excluded here.) *)
Theorem component_import_failure_rejects_render
    (env : Env) (path : string) (state opts : val) (s s1 : St)
    (pV : Settled val VueClass) (e : val) :
  getVueClass env s = (s1, Returns pV) ->
  (forall e', pV <> Rejected e') ->
  compiler_import env path = Rejected e ->
  renderToString env path state opts s = (s1, Returns (Rejected e))
  /\ renderToStream env path state opts s = (s1, Returns (Rejected e))
  /\ constructed s1 = constructed s.
Proof.
  intros HV HpV Hi.
  destruct (render_rejects_before_construction env path state opts JUndefined
              s s1 pV e HV HpV) as (_ & H1 & H2 & H3).
  - now rewrite Hi.
  - now repeat split.
Qed.

Lemma component_import_failure_rejects_render_witness :
  renderToString (Demo.env (Demo.imports Forever)) "missing" JUndefined JUndefined
    (Demo.state_with [Demo.plugin "P"])
  = (set_Vue VueGlobal (Vue_use (Demo.plugin "P") (Demo.state_with [Demo.plugin "P"])),
     Returns (Rejected (JObj {[ "name" := JStr "CompilerError";
                                "compiler" := JBool true ]}))).
Proof.
  refine (proj1 (component_import_failure_rejects_render
                   (Demo.env (Demo.imports Forever)) "missing" JUndefined JUndefined
                   (Demo.state_with [Demo.plugin "P"]) _ (Fulfilled VueGlobal) _
                   eq_refl _ eq_refl)).
  discriminate.
Defined.

(** X10: a module that carries the component definition under [default]
    and a module that is the definition itself give the same component:
    [getComponent] looks through one level of [default]. *)
Theorem default_export_is_unwrapped
    (env : Env) (wrapped_path bare_path : string) (object definition context : val)
    (s : St) :
  compiler_import env wrapped_path = Fulfilled object ->
  nullish object = false ->
  member object "default" = definition ->
  truthy definition = true ->
  compiler_import env bare_path = Fulfilled definition ->
  truthy (member definition "default") = false ->
  getComponent env wrapped_path context s = getComponent env bare_path context s.
Proof.
  intros Hw Hn Hd Ht Hb Hdd. unfold getComponent.
  destruct (getVueClass env s) as [s1 [pV|x]]; [|reflexivity].
  rewrite Hw, Hb. simpl. unfold unwrap_default.
  rewrite (get_prop_not_nullish _ _ Hn), Hd.
  assert (nullish definition = false) as Hnd
    by (destruct definition; try discriminate Ht; reflexivity).
  rewrite (get_prop_not_nullish _ _ Hnd).
  unfold or_else. now rewrite Ht, Hdd.
Qed.

Lemma default_export_is_unwrapped_witness :
  getComponent (Demo.env Cases.broken_imports) "module" JUndefined (Demo.state_with [])
  = getComponent (Demo.env Cases.broken_imports) "static" JUndefined (Demo.state_with []).
Proof.
  apply (default_export_is_unwrapped (Demo.env Cases.broken_imports)
           "module" "static" (JObj {[ "default" := Demo.plain_definition ]})
           Demo.plain_definition JUndefined (Demo.state_with []));
    reflexivity.
Defined.

(** X11: when the import resolves with [undefined] or [null], reading
    [default] from it throws inside the promise chain: both render calls are
    rejected with that TypeError and no component is constructed. *)
Theorem import_without_value_rejects_render
    (env : Env) (path : string) (state opts : val) (s s1 : St)
    (pV : Settled val VueClass) (object : val) :
  getVueClass env s = (s1, Returns pV) ->
  (forall e', pV <> Rejected e') ->
  compiler_import env path = Fulfilled object ->
  nullish object = true ->
  renderToString env path state opts s = (s1, Returns (Rejected no_default))
  /\ renderToStream env path state opts s = (s1, Returns (Rejected no_default))
  /\ constructed s1 = constructed s.
Proof.
  intros HV HpV Hi Hn.
  destruct (render_rejects_before_construction env path state opts JUndefined
              s s1 pV no_default HV HpV) as (_ & H1 & H2 & H3).
  - rewrite Hi. simpl. unfold unwrap_default, get_prop. now rewrite Hn.
  - now repeat split.
Qed.

Lemma import_without_value_rejects_render_witness :
  (renderToStream (Demo.env Cases.broken_imports) "nothing" JUndefined JUndefined
     (Demo.state_with [])).2
  = Returns (Rejected no_default).
Proof.
  refine (f_equal snd (proj1 (proj2 (import_without_value_rejects_render
            (Demo.env Cases.broken_imports) "nothing" JUndefined JUndefined
            (Demo.state_with []) _ (Fulfilled VueGlobal) JUndefined
            eq_refl _ eq_refl eq_refl)))).
  discriminate.
Defined.

(** X12: the option object handed to the Vue constructor is a fresh copy of
    the component definition with [$context] set to the render context:
    every other property reads as in the definition, and a [$context] that
    the definition carries itself is overridden. *)
Theorem definition_reaches_the_constructor
    (env : Env) (path : string) (context : val) (s s1 : St) (V : VueClass)
    (object : val) :
  getVueClass env s = (s1, Returns (Fulfilled V)) ->
  compiler_import env path = Fulfilled object ->
  nullish object = false ->
  let definition := or_else (member object "default") object in
  exists o,
    constructed (getComponent env path context s).1 = constructed s ++ [o]
    /\ member o "$context" = context
    /\ forall k, k <> "$context" -> member o k = member definition k.
Proof.
  intros HV Hi Hn definition.
  rewrite (getComponent_reaches_construction _ _ _ _ _ _ _ HV Hi Hn).
  fold definition.
  pose proof (getVueClass_only_installs env s) as (_ & _ & Hc & _).
  rewrite HV in Hc. simpl in Hc.
  exists (JObj (assign (assign ∅ definition) (JObj {[ "$context" := context ]}))).
  split; [|split].
  - unfold getComponent_then.
    destruct (truthy _); [|simpl; now rewrite Hc].
    destruct (option_of _ "asyncData") as [| | | | | |[data|e|] fs];
      simpl; now rewrite Hc.
  - rewrite member_assign. simpl. now rewrite lookup_singleton_eq.
  - intros k Hk. rewrite !member_assign. simpl.
    rewrite lookup_singleton_ne by congruence.
    unfold member. simpl. now destruct (own definition !! k).
Qed.

Lemma definition_reaches_the_constructor_witness :
  exists o,
    constructed (getComponent (Demo.env (Demo.imports Forever)) "static"
                   (JNum 5) (Demo.state_with [])).1 = [o]
    /\ member o "$context" = JNum 5
    /\ member o "data" = JObj {[ "b" := JNum 2 ]}.
Proof.
  destruct (definition_reaches_the_constructor (Demo.env (Demo.imports Forever))
              "static" (JNum 5) (Demo.state_with []) _ VueGlobal _
              eq_refl eq_refl eq_refl) as (o & H1 & H2 & H3).
  exists o. split; [exact H1|]. split; [exact H2|].
  apply (H3 "data"). discriminate.
Defined.

(** X13: two more ways the async-data step can end.  While the promise of
    [asyncData()] stays pending, both render calls stay pending and nothing
    is reported anywhere; when [asyncData] is set to something that is not
    a function, calling it throws inside the promise and both render calls
    are rejected. *)
Theorem async_data_pending_or_not_callable
    (env : Env) (path : string) (state opts : val) (s s1 : St) (V : VueClass)
    (object : val) :
  getVueClass env s = (s1, Returns (Fulfilled V)) ->
  compiler_import env path = Fulfilled object ->
  nullish object = false ->
  let SSRVueOptions :=
    JObj (assign (assign ∅ (or_else (member object "default") object))
            (JObj {[ "$context" := render_context state opts ]})) in
  let asyncData := option_of (Vue_new env SSRVueOptions) "asyncData" in
  (forall fs, asyncData = JFn Forever fs ->
     renderToString env path state opts s
       = (record_new SSRVueOptions s1, Returns Forever)
     /\ renderToStream env path state opts s
        = (record_new SSRVueOptions s1, Returns Forever))
  /\ (truthy asyncData = true -> (forall r fs, asyncData <> JFn r fs) ->
      exists e,
        renderToString env path state opts s
          = (record_new SSRVueOptions s1, Returns (Rejected e))
        /\ renderToStream env path state opts s
           = (record_new SSRVueOptions s1, Returns (Rejected e))).
Proof.
  intros HV Hi Hn SSRVueOptions asyncData.
  pose proof (getComponent_reaches_construction env path
                (render_context state opts) s s1 V object HV Hi Hn) as Hc.
  unfold getComponent_then in Hc. fold SSRVueOptions asyncData in Hc.
  split.
  - intros fs Ha. rewrite Ha in Hc. simpl in Hc.
    unfold renderToString, renderToStream. now rewrite Hc.
  - intros Ht Hf. rewrite Ht in Hc.
    destruct asyncData as [| | | | | |r fs]; try discriminate Ht;
      try (eexists; unfold renderToString, renderToStream; rewrite Hc;
           split; reflexivity).
    now destruct (Hf r fs).
Qed.

Lemma async_data_pending_or_not_callable_witness :
  (renderToString (Demo.env (Demo.imports Forever)) "page" JUndefined JUndefined
     (Demo.state_with [])).2
  = Returns Forever.
Proof.
  refine (f_equal snd (proj1 (proj1 (async_data_pending_or_not_callable
            (Demo.env (Demo.imports Forever)) "page" JUndefined JUndefined
            (Demo.state_with []) _ VueGlobal _ eq_refl eq_refl eq_refl)
            ∅ eq_refl))).
Defined.

(** X14: when the render primitive reports an error object, [renderToString]
    is rejected with that object, its [component] set to the path and its
    other properties as they were; this is so with and without [plain], and
    no template is assembled. *)
Theorem render_failure_is_annotated_with_the_path
    (env : Env) (path : string) (state opts : val) (s s1 : St)
    (component rendered : Component) (fields : gmap string val) (result : string) :
  getComponent env path (render_context state opts) s
    = (s1, Returns (Fulfilled component)) ->
  vueRenderer_renderToString env component = (JObj fields, result, rendered) ->
  exists e,
    renderToString env path state opts s = (s1, Returns (Rejected e))
    /\ member e "component" = JStr path
    /\ forall k, k <> "component" -> member e k = member (JObj fields) k.
Proof.
  intros Hc Hr. exists (set_prop (JObj fields) "component" (JStr path)).
  split; [|split].
  - unfold renderToString. now rewrite Hc, Hr.
  - apply member_set_prop_eq.
  - intros k Hk. unfold member; simpl. rewrite lookup_insert_ne by congruence.
    reflexivity.
Qed.

Lemma render_failure_is_annotated_with_the_path_witness :
  exists e,
    renderToString Cases.failing_load "static" JUndefined
      (JObj {[ "plain" := JBool true ]}) (Demo.state_with [])
    = (record_new
         (JObj {[ "data" := JObj {[ "b" := JNum 2 ]};
                  "$context" := render_context JUndefined
                                  (JObj {[ "plain" := JBool true ]}) ]})
         (set_Vue VueGlobal (Demo.state_with [])),
       Returns (Rejected e))
    /\ member e "component" = JStr "static"
    /\ member e "message" = JStr "boom".
Proof.
  destruct (render_failure_is_annotated_with_the_path Cases.failing_load "static"
              JUndefined (JObj {[ "plain" := JBool true ]}) (Demo.state_with [])
              _ _ _ {[ "message" := JStr "boom" ]} "" eq_refl eq_refl)
    as (e & H1 & H2 & H3).
  exists e. split; [exact H1|]. split; [exact H2|].
  rewrite (H3 "message") by discriminate. reflexivity.
Defined.

Lemma VueClass_is_the_global (V : VueClass) : V = VueGlobal.
Proof. now destruct V. Qed.

Lemma getVueClass_fulfilled_memoizes (env : Env) (s s1 : St) (V : VueClass) :
  getVueClass env s = (s1, Returns (Fulfilled V)) -> this_Vue s1 = Some VueGlobal.
Proof.
  unfold getVueClass, getVueClass_sync.
  destruct (this_Vue s) as [V0|] eqn:E.
  - intros H. inversion H; subst. rewrite E. f_equal.
    apply VueClass_is_the_global.
  - destruct (scan_plugins _ _ _) as [s' [need|e]]; [|discriminate].
    destruct (length need =? 0)%nat; [intros H; now inversion H|].
    destruct (promise_all _) as [mods|e|]; try discriminate.
    unfold getVueClass_then.
    destruct (install_all mods s') as [s'' [[]|e]]; [|discriminate].
    intros H; now inversion H.
Qed.

Lemma getComponent_then_keeps_installs (env : Env) (VueOptions context : val) (s : St) :
  this_Vue (getComponent_then env VueOptions context s).1 = this_Vue s
  /\ vue_uses (getComponent_then env VueOptions context s).1 = vue_uses s.
Proof.
  unfold getComponent_then.
  destruct (truthy _); [|now split].
  destruct (option_of _ "asyncData") as [| | | | | |[data|e|] fs]; now split.
Qed.

Lemma getComponent_fulfilled_memoizes
    (env : Env) (path : string) (context : val) (s s1 : St) (c : Component) :
  getComponent env path context s = (s1, Returns (Fulfilled c)) ->
  this_Vue s1 = Some VueGlobal.
Proof.
  unfold getComponent.
  destruct (getVueClass env s) as [s' [pV|x]] eqn:HV; [|discriminate].
  destruct pV as [V|e|]; simpl.
  - destruct (then_ _ _) as [VueOptions|e|]; simpl; try discriminate.
    pose proof (getComponent_then_keeps_installs env VueOptions context s') as [H _].
    destruct (getComponent_then env VueOptions context s') as [s2 r]; simpl in H.
    intros H0; inversion H0; subst. rewrite H.
    eapply getVueClass_fulfilled_memoizes, HV.
  - discriminate.
  - destruct (then_ _ _); discriminate.
Qed.

Lemma getComponent_when_memoized
    (env : Env) (path : string) (context : val) (s : St) (V : VueClass) :
  this_Vue s = Some V ->
  vue_uses (getComponent env path context s).1 = vue_uses s.
Proof.
  intros H. unfold getComponent, getVueClass.
  rewrite (getVueClass_sync_memoized _ _ H).
  destruct (then_ _ _) as [VueOptions|e|]; simpl; try reflexivity.
  pose proof (getComponent_then_keeps_installs env VueOptions context s) as [_ H'].
  now destruct (getComponent_then env VueOptions context s).
Qed.

(** X15: plugins are installed by the first render call that gets as far
    as a component.  When a render call has resolved, [this.Vue] is set, and
    no later render call, to string or to stream, for whatever component,
    hands anything to [Vue.use]. *)
Theorem plugins_are_installed_by_the_first_render
    (env : Env) (path : string) (state opts : val) (s s1 : St) :
  (exists html, renderToString env path state opts s = (s1, Returns (Fulfilled html)))
  \/ (exists r, renderToStream env path state opts s = (s1, Returns (Fulfilled r))) ->
  this_Vue s1 = Some VueGlobal
  /\ forall path' state' opts',
       vue_uses (renderToString env path' state' opts' s1).1 = vue_uses s1
       /\ vue_uses (renderToStream env path' state' opts' s1).1 = vue_uses s1.
Proof.
  intros H.
  assert (this_Vue s1 = Some VueGlobal) as Hm.
  { destruct H as [[html H] | [r H]].
    - unfold renderToString in H.
      destruct (getComponent _ _ _ _) as [s' [[c| |]|x]] eqn:Hc; try discriminate.
      apply getComponent_fulfilled_memoizes in Hc.
      destruct (vueRenderer_renderToString env c) as [[x result] rendered].
      destruct (truthy x); [discriminate|].
      destruct (truthy (isPlain opts)); inversion H; now subst.
    - unfold renderToStream in H.
      destruct (getComponent _ _ _ _) as [s' [[c| |]|x]] eqn:Hc; try discriminate.
      apply getComponent_fulfilled_memoizes in Hc.
      destruct (vueRenderer_renderToStream env c) as [chunks rendered].
      destruct (truthy (isPlain opts)); inversion H; now subst. }
  split; [exact Hm|]. intros path' state' opts'.
  rewrite renderToString_state, renderToStream_state.
  split; eapply getComponent_when_memoized, Hm.
Qed.

Lemma plugins_are_installed_by_the_first_render_witness :
  vue_uses (renderToStream (Demo.env (Demo.imports Forever)) "page" JUndefined
              JUndefined
              (renderToString (Demo.env (Demo.imports Forever)) "static" JUndefined
                 JUndefined (Demo.state_with [Demo.plugin "P"; JStr "b"])).1).1
  = [Demo.plugin "P"; Demo.plugin "B"].
Proof.
  refine (proj2 (proj2 (plugins_are_installed_by_the_first_render
            (Demo.env (Demo.imports Forever)) "static" JUndefined JUndefined
            (Demo.state_with [Demo.plugin "P"; JStr "b"]) _
            (or_introl (ex_intro _ _ eq_refl))) "page" JUndefined JUndefined)).
Defined.

(** X16: nothing but [init] and the stream-error listener emits on the
    Renderer: [getVueClass], alone or in overlapping calls, [getComponent]
    and both render calls leave the emitted events as they are, also when
    they fail. *)
Theorem render_calls_emit_nothing
    (env : Env) (path : string) (context state opts : val) (s : St) :
  emitted (getVueClass env s).1 = emitted s
  /\ (forall evs w, emitted (st (run env evs w)) = emitted (st w))
  /\ emitted (getComponent env path context s).1 = emitted s
  /\ emitted (renderToString env path state opts s).1 = emitted s
  /\ emitted (renderToStream env path state opts s).1 = emitted s.
Proof.
  split; [apply getVueClass_only_installs|].
  split; [intros evs w; apply run_only_installs|].
  split; [apply getComponent_frame|].
  rewrite renderToString_state, renderToStream_state.
  split; apply getComponent_frame.
Qed.

(** X17: the two render calls wrap the body in the same fragments.  For a
    call without [plain], when the component carries the same metadata
    after either primitive has run, the string is [head + body + tail] and
    the stream is the body stream, with the error listener on it, piped into
    a transform made from that same [head] and [tail]. *)
Theorem both_render_calls_use_the_same_fragments
    (env : Env) (path : string) (state opts : val) (s s1 : St)
    (component rendered rendered' : Component) (e : val) (result : string)
    (chunks : list StreamTransform.Upstream) :
  getComponent env path (render_context state opts) s
    = (s1, Returns (Fulfilled component)) ->
  vueRenderer_renderToString env component = (e, result, rendered) ->
  truthy e = false ->
  vueRenderer_renderToStream env component = (chunks, rendered') ->
  meta_inject env rendered = meta_inject env rendered' ->
  truthy (isPlain opts) = false ->
  exists h tl,
    renderToString env path state opts s
      = (s1, Returns (Fulfilled (h +:+ result +:+ tl)))
    /\ renderToStream env path state opts s
       = (s1, Returns (Fulfilled
            (Piped {| source := chunks;
                      error_listeners := [body_error_listener env path state] |}
               (StreamTransform.create h tl)))).
Proof.
  intros Hc Hr He Hs Hm Hp.
  eexists _, _. unfold renderToString, renderToStream.
  rewrite Hc, Hr, He, Hs, Hp, <- Hm. split; reflexivity.
Qed.

Lemma both_render_calls_use_the_same_fragments_witness :
  exists h tl,
    (renderToString (Demo.env (Demo.imports Forever)) "static" JUndefined
       JUndefined (Demo.state_with [])).2
      = Returns (Fulfilled (h +:+ "<div>hello</div>" +:+ tl))
    /\ (renderToStream (Demo.env (Demo.imports Forever)) "static" JUndefined
          JUndefined (Demo.state_with [])).2
       = Returns (Fulfilled
           (Piped {| source := [StreamTransform.Chunk "x"; StreamTransform.Chunk "y";
                                StreamTransform.End];
                     error_listeners :=
                       [body_error_listener (Demo.env (Demo.imports Forever))
                          "static" JUndefined] |}
              (StreamTransform.create h tl))).
Proof.
  destruct (both_render_calls_use_the_same_fragments
              (Demo.env (Demo.imports Forever)) "static" JUndefined JUndefined
              (Demo.state_with []) _ _ _ _ JNull "<div>hello</div>" _
              eq_refl eq_refl eq_refl eq_refl eq_refl eq_refl)
    as (h & tl & H1 & H2).
  exists h, tl. now rewrite H1, H2.
Defined.
